(** * snippets: the Jira status-report pipeline

    A shallow embedding of the report pipeline of the [snippets] tool
    (the main package and [client.go]): status classification, the overdue
    test, the filter-and-sort engine, the CSV and deep-link renderers and the
    paginated search of the client.

    Conventions.
    - A Go [string] is a sequence of bytes: [String.string], whose characters
      are 8-bit [ascii] values.  Go compares strings byte-wise, which is
      [String.compare].
    - A Go [int] is modelled by [Z]; every integer of the modelled code is a
      slice length, an index or a page size, far from the 64-bit bounds.
    - A [time.Time] is the instant it denotes: nanoseconds since the Unix
      epoch, in [Z].  [Before] and [After] compare instants only.
    - [map[string]T] is a [gmap string T]; [map[string]any] is [JObject].
    - [*IssueData] in a slice is [option IssueData], [None] being [nil].
    - [time.Now()] is an explicit argument [now].
    - Status names are taken to be ASCII text: [strings.ToLower] and
      [strings.TrimSpace] are modelled on ASCII letters and ASCII white space,
      and leave every byte from 128 up as it is.
    - Packages [time], [sort], [net/url] and [strings] belong to the Go
      library, not to the repository; the modules of those names model the
      functions the program calls, as the library documents them. *)

From Stdlib Require Import ZArith String Ascii List Lia Bool.
From Stdlib Require Import Sorting.Sorted Sorting.Permutation.
From Stdlib Require Import Structures.OrderedTypeEx.
From stdpp Require Import gmap strings list sorting.

Open Scope string_scope.
Open Scope Z_scope.

(** ** The part of package [strings] the program uses *)

Module strings.

(** ASCII white space, the set [strings.TrimSpace] removes from an ASCII
    string: tab, line feed, vertical tab, form feed, carriage return, space. *)
Definition isSpace (c : ascii) : bool :=
  let n := nat_of_ascii c in
  ((9 <=? n) && (n <=? 13))%nat || (n =? 32)%nat.

Definition isUpper (c : ascii) : bool :=
  let n := nat_of_ascii c in ((65 <=? n) && (n <=? 90))%nat.

Definition lowerByte (c : ascii) : ascii :=
  if isUpper c then ascii_of_nat (nat_of_ascii c + 32) else c.

(** [strings.ToLower] on the bytes of an ASCII string; bytes from 128 up are
    left as they are. *)
Fixpoint ToLower (s : string) : string :=
  match s with
  | EmptyString => EmptyString
  | String c s' => String (lowerByte c) (ToLower s')
  end.

Fixpoint TrimLeftSpace (s : string) : string :=
  match s with
  | EmptyString => EmptyString
  | String c s' => if isSpace c then TrimLeftSpace s' else s
  end.

Fixpoint TrimRightSpace (s : string) : string :=
  match s with
  | EmptyString => EmptyString
  | String c s' =>
      match TrimRightSpace s' with
      | EmptyString => if isSpace c then EmptyString else String c EmptyString
      | r => String c r
      end
  end.

(** [strings.TrimSpace]: leading and trailing white space removed. *)
Definition TrimSpace (s : string) : string := TrimRightSpace (TrimLeftSpace s).

(** [strings.Contains s substr]. *)
Fixpoint Contains (s substr : string) : bool :=
  String.prefix substr s ||
  match s with
  | EmptyString => false
  | String _ s' => Contains s' substr
  end.

(** [strings.ReplaceAll s old new] where [old] is the one-byte string made
    of [old]. *)
Fixpoint ReplaceAll (s : string) (old : ascii) (new : string) : string :=
  match s with
  | EmptyString => EmptyString
  | String c s' =>
      if Ascii.eqb c old then new ++ ReplaceAll s' old new
      else String c (ReplaceAll s' old new)
  end.

(** [strings.Join elems sep]. *)
Fixpoint Join (elems : list string) (sep : string) : string :=
  match elems with
  | [] => EmptyString
  | [e] => e
  | e :: rest => e ++ sep ++ Join rest sep
  end.

(** [strings.TrimSuffix s "/"]: one trailing slash removed, if there is one. *)
Fixpoint TrimSuffixSlash (s : string) : string :=
  match s with
  | EmptyString => EmptyString
  | String c EmptyString => if Ascii.eqb c "/" then EmptyString else s
  | String c s' => String c (TrimSuffixSlash s')
  end.

End strings.

(** ** JSON values as [encoding/json] decodes them into [any] *)

(** A number is a [float64] in Go; the program reads numbers only through
    [getInt], as [int(n)], so a number is represented by that integer. *)
#[warnings="-register-all"]
Inductive json : Type :=
  | JNull
  | JBool (b : bool)
  | JNumber (n : Z)
  | JString (s : string)
  | JArray (l : list json)
  | JObject (m : gmap string json).

(** A [map[string]any] that may be [nil]. *)
Abbreviation jmap := (option (gmap string json)).

Definition getString (m : jmap) (key : string) : string :=
  match m with
  | None => ""
  | Some m =>
      match m !! key with
      | Some (JString s) => s
      | _ => ""
      end
  end.

Definition getInt (m : jmap) (key : string) : Z :=
  match m with
  | None => 0
  | Some m =>
      match m !! key with
      | Some (JNumber n) => n
      | _ => 0
      end
  end.

Definition getMap (m : jmap) (key : string) : jmap :=
  match m with
  | None => None
  | Some m =>
      match m !! key with
      | Some (JObject sub) => Some sub
      | _ => None
      end
  end.

Fixpoint objectsOf (l : list json) : list (gmap string json) :=
  match l with
  | [] => []
  | JObject sub :: l' => sub :: objectsOf l'
  | _ :: l' => objectsOf l'
  end.

(** [getMapList]: a [nil] slice and an empty one are both [[]]; the callers
    only range over the result and take its length. *)
Definition getMapList (m : jmap) (key : string) : list (gmap string json) :=
  match m with
  | None => []
  | Some m =>
      match m !! key with
      | Some (JArray l) => objectsOf l
      | _ => []
      end
  end.

(** ** Status tables *)

Definition statusCategories : gmap string string :=
  list_to_map
    [ ("done", "🟣"); ("closed", "🟣"); ("resolved", "🟣");
      ("in progress", "🟢");
      ("at risk", "🟡");
      ("off track", "🔴"); ("blocked", "🔴");
      ("not started", "⚪"); ("ready for work", "⚪");
      ("vetting", "⚪"); ("new", "⚪") ].

Definition statusOrder : list string :=
  [ "done"; "closed"; "resolved"; "in progress"; "at risk"; "off track";
    "blocked"; "not started"; "ready for work"; "vetting"; "new" ].

(** The loop [for i, s := range statusOrder { m[s] = i }]. *)
Fixpoint statusPriority_from (i : Z) (order : list string)
    (m : gmap string Z) : gmap string Z :=
  match order with
  | [] => m
  | s :: rest => statusPriority_from (i + 1) rest (<[s := i]> m)
  end.

Definition statusPriority : gmap string Z :=
  statusPriority_from 0 statusOrder ∅.

Definition GetStatusEmoji (statusName : string) : string :=
  let status := strings.ToLower (strings.TrimSpace statusName) in
  match statusCategories !! status with
  | Some emoji => emoji
  | None => "❓"
  end.

Definition GetStatusPriority (statusName : string) : Z :=
  let status := strings.ToLower (strings.TrimSpace statusName) in
  match statusPriority !! status with
  | Some p => p
  | None => 999
  end.

(** ** The part of package [time] the program uses *)

Module time.

(** An instant: nanoseconds since 1970-01-01T00:00:00Z. *)
Definition Time : Type := Z.

Definition Before (t u : Time) : bool := t <? u.
Definition After (t u : Time) : bool := u <? t.

Definition Second : Z := 1000000000.
Definition Hour : Z := 3600 * Second.

(** The zero [Time], January 1 of year 1, 00:00 UTC. *)
Definition zeroTime : Time := -62135596800 * Second.

(** [t.Truncate(d)]: [t] rounded down to a multiple of [d] since the zero
    time; [t] itself when [d <= 0]. *)
Definition Truncate (t : Time) (d : Z) : Time :=
  if d <=? 0 then t else t - (t - zeroTime) mod d.

(** *** Calendar *)

Definition isLeap (year : Z) : bool :=
  (year mod 4 =? 0) && (negb (year mod 100 =? 0) || (year mod 400 =? 0)).

Definition daysIn (month year : Z) : Z :=
  if month =? 2 then (if isLeap year then 29 else 28)
  else if (month =? 4) || (month =? 6) || (month =? 9) || (month =? 11)
       then 30 else 31.

(** Days from 1970-01-01 to the given day of the proleptic Gregorian
    calendar. *)
Definition daysSinceEpoch (year month day : Z) : Z :=
  let y := if month <=? 2 then year - 1 else year in
  let era := y / 400 in
  let yoe := y - era * 400 in
  let mp := (month + 9) mod 12 in
  let doy := (153 * mp + 2) / 5 + day - 1 in
  let doe := yoe * 365 + yoe / 4 - yoe / 100 + doy in
  era * 146097 + doe - 719468.

(** [time.Date(year, month, day, hour, min, sec, nsec, time.UTC)] for fields
    that are in range. *)
Definition Date (year month day hour min sec nsec : Z) : Time :=
  (daysSinceEpoch year month day * 86400 + hour * 3600 + min * 60 + sec)
  * Second + nsec.

(** *** Layouts

    A layout is the sequence of chunks [nextStdChunk] cuts the layout string
    into; only the chunks of the layouts the program passes to [time.Parse]
    are listed. *)
Inductive chunk : Type :=
  | stdLongYear                  (* 2006 *)
  | stdZeroMonth                 (* 01 *)
  | stdZeroDay                   (* 02 *)
  | stdHour                      (* 15 *)
  | stdZeroMinute                (* 04 *)
  | stdZeroSecond                (* 05 *)
  | stdFracSecond0 (digits : nat) (* .000 *)
  | stdNumTZ                     (* -0700 *)
  | stdISO8601ColonTZ            (* Z07:00 *)
  | Lit (prefix : string).       (* text copied verbatim *)

Definition dateChunks : list chunk :=
  [stdLongYear; Lit "-"; stdZeroMonth; Lit "-"; stdZeroDay].

Definition clockChunks : list chunk :=
  [Lit "T"; stdHour; Lit ":"; stdZeroMinute; Lit ":"; stdZeroSecond].

(** ["2006-01-02T15:04:05.000-0700"] *)
Definition layoutMillisNumTZ : list chunk :=
  dateChunks ++ clockChunks ++ [stdFracSecond0 3; stdNumTZ].
(** ["2006-01-02T15:04:05.000Z"]: a [Z] that no zone layout follows is text. *)
Definition layoutMillisZ : list chunk :=
  dateChunks ++ clockChunks ++ [stdFracSecond0 3; Lit "Z"].
(** ["2006-01-02T15:04:05-0700"] *)
Definition layoutNumTZ : list chunk :=
  dateChunks ++ clockChunks ++ [stdNumTZ].
(** ["2006-01-02T15:04:05Z"] *)
Definition layoutZ : list chunk :=
  dateChunks ++ clockChunks ++ [Lit "Z"].
(** [time.RFC3339], ["2006-01-02T15:04:05Z07:00"] *)
Definition RFC3339 : list chunk :=
  dateChunks ++ clockChunks ++ [stdISO8601ColonTZ].
(** ["2006-01-02"] *)
Definition layoutDate : list chunk := dateChunks.

(** *** Scanning *)

Definition isDigit (c : ascii) : bool :=
  let n := nat_of_ascii c in ((48 <=? n) && (n <=? 57))%nat.

Definition digitVal (c : ascii) : Z := Z.of_nat (nat_of_ascii c) - 48.

(** [getnum s fixed]: a number of one or two digits, of exactly two when
    [fixed]; the rest of the input comes with it. *)
Definition getnum (s : string) (fixed : bool) : option (Z * string) :=
  match s with
  | String a rest =>
      if isDigit a then
        match rest with
        | String b rest' =>
            if isDigit b then Some (digitVal a * 10 + digitVal b, rest')
            else if fixed then None else Some (digitVal a, rest)
        | EmptyString => if fixed then None else Some (digitVal a, rest)
        end
      else None
  | EmptyString => None
  end.

(** [leadingInt] on a string that must be digits to its end. *)
Fixpoint allDigits (acc : Z) (s : string) : option Z :=
  match s with
  | EmptyString => Some acc
  | String c s' =>
      if isDigit c then allDigits (acc * 10 + digitVal c) s' else None
  end.

(** [atoi]: an optional sign, then digits to the end. *)
Definition atoi (s : string) : option Z :=
  match s with
  | String "-" s' => option_map Z.opp (allDigits 0 s')
  | String "+" s' => allDigits 0 s'
  | _ => allDigits 0 s
  end.

(** [skip value prefix] for a prefix without spaces. *)
Fixpoint skip (value prefix : string) {struct prefix} : option string :=
  match prefix with
  | EmptyString => Some value
  | String p prefix' =>
      match value with
      | String v value' => if Ascii.eqb v p then skip value' prefix' else None
      | EmptyString => None
      end
  end.

Definition commaOrPeriod (c : ascii) : bool :=
  Ascii.eqb c "." || Ascii.eqb c ",".

Definition take (n : nat) (s : string) : string := String.substring 0 n s.
Definition drop (n : nat) (s : string) : string :=
  String.substring n (String.length s - n) s.

(** [parseNanoseconds value nbytes]: [value[0]] is the separator and
    [value[1:nbytes]] the digits, of which nine at most are read. *)
Definition parseNanoseconds (value : string) (nbytes : nat) : option Z :=
  match value with
  | String c _ =>
      if commaOrPeriod c then
        let nbytes := Nat.min nbytes 10 in
        match atoi (drop 1 (take nbytes value)) with
        | Some ns =>
            if ns <? 0 then None
            else Some (ns * 10 ^ Z.of_nat (10 - nbytes))
        | None => None
        end
      else None
  | EmptyString => None
  end.

(** Length of the run of digits that starts [value]. *)
Fixpoint digitRun (value : string) : nat :=
  match value with
  | String c rest => if isDigit c then S (digitRun rest) else O
  | EmptyString => O
  end.

(** The fields a parse collects. *)
Record fields : Type := mkFields {
  f_year : Z; f_month : Z; f_day : Z;
  f_hour : Z; f_min : Z; f_sec : Z; f_nsec : Z;
  f_zoneOffset : Z   (* seconds east of UTC; 0 for [Z] and for no zone *)
}.

Definition noFields : fields := mkFields 0 (-1) (-1) 0 0 0 0 0.

(** A numeric zone offset, [-0700] or, with [colon], [-07:00]: the offset in
    seconds and the rest of the input. *)
Definition parseOffset (colon : bool) (value : string) : option (Z * string) :=
  let finish (sign h1 h2 m1 m2 : ascii) (rest : string) :=
    match getnum (String h1 (String h2 EmptyString)) true,
          getnum (String m1 (String m2 EmptyString)) true with
    | Some (hr, _), Some (mm, _) =>
        if (24 <? hr) || (60 <? mm) then None
        else
          let zoneOffset := (hr * 60 + mm) * 60 in
          if Ascii.eqb sign "+" then Some (zoneOffset, rest)
          else if Ascii.eqb sign "-" then Some (- zoneOffset, rest)
          else None
    | _, _ => None
    end in
  if colon then
    match value with
    | String sign (String h1 (String h2 (String c (String m1 (String m2 rest))))) =>
        if Ascii.eqb c ":" then finish sign h1 h2 m1 m2 rest else None
    | _ => None
    end
  else
    match value with
    | String sign (String h1 (String h2 (String m1 (String m2 rest)))) =>
        finish sign h1 h2 m1 m2 rest
    | _ => None
    end.

(** A fraction of a second met right after the seconds when the layout has
    none there: it is read all the same. *)
Definition optionalFraction (value : string) : option (Z * string) :=
  match value with
  | String c (String d _) =>
      if commaOrPeriod c && isDigit d then
        let n := S (digitRun (drop 1 value)) in
        match parseNanoseconds value n with
        | Some nsec => Some (nsec, drop n value)
        | None => None
        end
      else Some (0, value)
  | _ => Some (0, value)
  end.

(** The loop of [parse]: one layout chunk at a time, against the front of
    [value]; text left over at the end of the layout is an error. *)
Fixpoint parseChunks (layout : list chunk) (value : string) (f : fields)
    : option fields :=
  match layout with
  | [] => match value with EmptyString => Some f | _ => None end
  | c :: layout' =>
      match c with
      | Lit prefix =>
          match skip value prefix with
          | Some value' => parseChunks layout' value' f
          | None => None
          end
      | stdLongYear =>
          match value with
          | String d _ =>
              if (4 <=? String.length value)%nat && isDigit d then
                match atoi (take 4 value) with
                | Some year =>
                    parseChunks layout' (drop 4 value)
                      (mkFields year (f_month f) (f_day f) (f_hour f)
                         (f_min f) (f_sec f) (f_nsec f) (f_zoneOffset f))
                | None => None
                end
              else None
          | EmptyString => None
          end
      | stdZeroMonth =>
          match getnum value true with
          | Some (month, value') =>
              if (month <=? 0) || (12 <? month) then None
              else parseChunks layout' value'
                     (mkFields (f_year f) month (f_day f) (f_hour f)
                        (f_min f) (f_sec f) (f_nsec f) (f_zoneOffset f))
          | None => None
          end
      | stdZeroDay =>
          (* any two digits here; the day is checked against the month
             once the whole value is read *)
          match getnum value true with
          | Some (day, value') =>
              parseChunks layout' value'
                (mkFields (f_year f) (f_month f) day (f_hour f)
                   (f_min f) (f_sec f) (f_nsec f) (f_zoneOffset f))
          | None => None
          end
      | stdHour =>
          match getnum value false with
          | Some (hour, value') =>
              if (hour <? 0) || (24 <=? hour) then None
              else parseChunks layout' value'
                     (mkFields (f_year f) (f_month f) (f_day f) hour
                        (f_min f) (f_sec f) (f_nsec f) (f_zoneOffset f))
          | None => None
          end
      | stdZeroMinute =>
          match getnum value true with
          | Some (min, value') =>
              if (min <? 0) || (60 <=? min) then None
              else parseChunks layout' value'
                     (mkFields (f_year f) (f_month f) (f_day f) (f_hour f)
                        min (f_sec f) (f_nsec f) (f_zoneOffset f))
          | None => None
          end
      | stdZeroSecond =>
          match getnum value true with
          | Some (sec, value') =>
              if (sec <? 0) || (60 <=? sec) then None
              else
                let f' := mkFields (f_year f) (f_month f) (f_day f) (f_hour f)
                            (f_min f) sec (f_nsec f) (f_zoneOffset f) in
                match layout' with
                | stdFracSecond0 _ :: _ => parseChunks layout' value' f'
                | _ =>
                    match optionalFraction value' with
                    | Some (nsec, value'') =>
                        parseChunks layout' value''
                          (mkFields (f_year f) (f_month f) (f_day f)
                             (f_hour f) (f_min f) sec nsec (f_zoneOffset f))
                    | None => None
                    end
                end
          | None => None
          end
      | stdFracSecond0 digits =>
          let ndigit := S digits in
          if (String.length value <? ndigit)%nat then None
          else
            match parseNanoseconds value ndigit with
            | Some nsec =>
                parseChunks layout' (drop ndigit value)
                  (mkFields (f_year f) (f_month f) (f_day f) (f_hour f)
                     (f_min f) (f_sec f) nsec (f_zoneOffset f))
            | None => None
            end
      | stdNumTZ =>
          match parseOffset false value with
          | Some (off, value') =>
              parseChunks layout' value'
                (mkFields (f_year f) (f_month f) (f_day f) (f_hour f)
                   (f_min f) (f_sec f) (f_nsec f) off)
          | None => None
          end
      | stdISO8601ColonTZ =>
          match value with
          | String "Z" value' => parseChunks layout' value' f
          | _ =>
              match parseOffset true value with
              | Some (off, value') =>
                  parseChunks layout' value'
                    (mkFields (f_year f) (f_month f) (f_day f) (f_hour f)
                       (f_min f) (f_sec f) (f_nsec f) off)
              | None => None
              end
          end
      end
  end.

(** [time.Parse layout value]: [None] stands for any error. *)
Definition Parse (layout : list chunk) (value : string) : option Time :=
  match parseChunks layout value noFields with
  | Some f =>
      if (f_day f <? 1) || (daysIn (f_month f) (f_year f) <? f_day f) then None
      else
        Some (Date (f_year f) (f_month f) (f_day f)
                (f_hour f) (f_min f) (f_sec f) (f_nsec f)
              - f_zoneOffset f * Second)
  | None => None
  end.

End time.

(** ** Dates of the tracker *)

(** [regexp.MustCompile(`(\d{2})(\d{2})$`).ReplaceAllString(s, "$1:$2")]:
    when [s] ends in four digits, a colon goes between the two pairs. *)
Fixpoint colonBeforeLastTwo (s : string) : string :=
  match s with
  | String a (String b (String c (String d EmptyString))) =>
      if time.isDigit a && time.isDigit b && time.isDigit c && time.isDigit d
      then String a (String b (String ":" (String c (String d EmptyString))))
      else s
  | String a s' => String a (colonBeforeLastTwo s')
  | EmptyString => EmptyString
  end.

Definition jiraFormats : list (list time.chunk) :=
  [ time.layoutMillisNumTZ; time.layoutMillisZ; time.layoutNumTZ;
    time.layoutZ; time.RFC3339; time.layoutDate ].

(** The loop over the formats: the first that parses wins. *)
Fixpoint firstParse (formats : list (list time.chunk)) (dateStr : string)
    : option time.Time :=
  match formats with
  | [] => None
  | format :: rest =>
      match time.Parse format dateStr with
      | Some t => Some t
      | None => firstParse rest dateStr
      end
  end.

(** [ParseJiraDate]: [None] is the error result. *)
Definition ParseJiraDate (dateStr : string) : option time.Time :=
  if String.eqb dateStr "" then None
  else
    match firstParse jiraFormats dateStr with
    | Some t => Some t
    | None => time.Parse time.RFC3339 (colonBeforeLastTwo dateStr)
    end.

(** [IsOverdue], with the clock reading [now] it takes from [time.Now()]. *)
Definition IsOverdue (now : time.Time) (statusName targetEnd : string) : bool :=
  let status := strings.ToLower (strings.TrimSpace statusName) in
  if String.eqb status "done" || String.eqb status "resolved" then false
  else if String.eqb targetEnd "" || String.eqb targetEnd "None" then false
  else if negb (strings.Contains targetEnd "T") then
    match time.Parse time.layoutDate targetEnd with
    | None => false
    | Some dueDate => time.After (time.Truncate now (24 * time.Hour)) dueDate
    end
  else
    match ParseJiraDate targetEnd with
    | None => false
    | Some dueTime => time.After now dueTime
    end.

(** ** The data model *)

Module IssueComment.
Record t : Type := mk { Url : string; Created : string }.
(** The zero value, which stands for an issue without a comment. *)
Definition zero : t := mk "" "".
End IssueComment.

Record IssueData : Type := mkIssueData {
  Key : string;
  URL : string;
  Summary : string;
  StatusName : string;
  Assignee : string;
  Priority : string;
  Created : string;
  Updated : string;
  TargetEnd : string;
  ParentKey : string;
  ParentSummary : string;
  ParentURL : string;
  Trending : string;
  Emoji : string;
  Comment : IssueComment.t
}.

Record ReportConfig : Type := mkReportConfig {
  Title : string;
  ShowChildren : bool;
  Since : option time.Time;
  NoCommentSince : option time.Time;
  OutputFile : string;
  JSONOutput : bool;
  CSVOutput : bool;
  SlackOutput : bool;
  URLOutput : bool;
  JQLQuery : string
}.

(** The glyph of the statuses that are off track. *)
Definition offTrackGlyph : string := "🔴".

(** ** The normalizer *)

(** [ExtractIssueData]; the global [customFields] and the clock are
    arguments. *)
Definition ExtractIssueData (now : time.Time)
    (customFields : gmap string string)
    (issue : jmap) (serverURL parentKey parentSummary : string) : IssueData :=
  let fields := getMap issue "fields" in
  let issueKey := getString issue "key" in
  let statusObj := getMap fields "status" in
  let statusName := getString statusObj "name" in
  let statusName := if String.eqb statusName "" then "Unknown" else statusName in
  let statusName := strings.ToLower (strings.TrimSpace statusName) in
  let assigneeObj := getMap fields "assignee" in
  let assignee := getString assigneeObj "displayName" in
  let assignee := if String.eqb assignee "" then "N/A" else assignee in
  let priorityObj := getMap fields "priority" in
  let priority := getString priorityObj "name" in
  let priority := if String.eqb priority "" then "None" else priority in
  let created := getString fields "created" in
  let updated := getString fields "updated" in
  let targetEndField := default "" (customFields !! "Target end") in
  let targetEnd :=
    if negb (String.eqb targetEndField "") then getString fields targetEndField
    else "" in
  let summary := getString fields "summary" in
  let issueURL := serverURL ++ "/browse/" ++ issueKey in
  let trending :=
    if String.eqb statusName "done" || String.eqb statusName "closed"
       || String.eqb statusName "resolved" then "done"
    else if String.eqb statusName "not started"
            || String.eqb statusName "ready for work"
            || String.eqb statusName "vetting" || String.eqb statusName "new"
    then "not started"
    else statusName in
  let emoji := GetStatusEmoji statusName in
  let overdue := IsOverdue now statusName targetEnd in
  let emoji := if overdue then offTrackGlyph else emoji in
  let trending := if overdue then "overdue" else trending in
  let parentKey := if String.eqb parentKey "" then issueKey else parentKey in
  let parentSummary :=
    if String.eqb parentSummary "" then summary else parentSummary in
  let parentURL :=
    if negb (String.eqb parentKey issueKey)
    then serverURL ++ "/browse/" ++ parentKey else issueURL in
  {| Key := issueKey; URL := issueURL; Summary := summary;
     StatusName := statusName; Assignee := assignee; Priority := priority;
     Created := created; Updated := updated; TargetEnd := targetEnd;
     ParentKey := parentKey; ParentSummary := parentSummary;
     ParentURL := parentURL; Trending := trending; Emoji := emoji;
     Comment := IssueComment.zero |}.

(** ** Package [sort] *)

Module sort.
Section Slice.
Context {A : Type} (less : A -> A -> bool).

(** The inner loop of [insertionSort_func],
    [for j := i; j > a && less(j, j-1); j-- { swap(j, j-1) }]:
    [below] is the sorted part [data[a:i]] read from index [i-1] down to
    [a], and [x] is [data[i]] on its way down; the result is [data[a:i+1]],
    read downwards. *)
Fixpoint insertDown (x : A) (below : list A) : list A :=
  match below with
  | [] => [x]
  | y :: below' => if less x y then y :: insertDown x below' else x :: below
  end.

(** The outer loop, [for i := a + 1; i < b; i++]. *)
Fixpoint insertionSort_from (below rest : list A) : list A :=
  match rest with
  | [] => rev below
  | x :: rest' => insertionSort_from (insertDown x below) rest'
  end.

(** [sort.Slice(x, less)].  The library sorts a slice of at most twelve
    elements with [insertionSort_func]; a longer one goes through
    pattern-defeating quicksort, which returns a slice that is already in
    order as it is and otherwise may order differently only elements that
    [less] does not tell apart.  Every slice is sorted by insertion here. *)
Definition Slice (x : list A) : list A := insertionSort_from [] x.

(** In order: [b], which comes after [a], is not below it. *)
Definition up (a b : A) : Prop := less b a = false.
(** The same for a slice read downwards. *)
Definition down (a b : A) : Prop := less a b = false.
End Slice.
End sort.

(** ** The filter and sort engine *)

(** The [since] test of the filter loop: [false] is [continue]. *)
Definition sinceKeeps (cfg : ReportConfig) (issue : IssueData) : bool :=
  match Since cfg with
  | Some since =>
      let timestamp := Updated issue in
      if String.eqb timestamp "" || String.eqb timestamp "N/A" then false
      else
        match ParseJiraDate timestamp with
        | None => false
        | Some updateDate => negb (time.Before updateDate since)
        end
  | None => true
  end.

(** The [noCommentSince] test of the filter loop. *)
Definition commentKeeps (cfg : ReportConfig) (issue : IssueData) : bool :=
  match NoCommentSince cfg with
  | Some noCommentSince =>
      if negb (String.eqb (IssueComment.Created (Comment issue)) "") then
        match ParseJiraDate (IssueComment.Created (Comment issue)) with
        | Some commentDate => negb (time.After commentDate noCommentSince)
        | None => true
        end
      else true
  | None => true
  end.

(** The body of the filter loop for an issue that is not [nil]: [true] when
    the issue reaches [append]. *)
Definition keepIssue (cfg : ReportConfig) (issue : IssueData) : bool :=
  sinceKeeps cfg issue && commentKeeps cfg issue.

Fixpoint filterIssues (cfg : ReportConfig) (issues : list (option IssueData))
    : list IssueData :=
  match issues with
  | [] => []
  | None :: rest => filterIssues cfg rest
  | Some issue :: rest =>
      if keepIssue cfg issue then issue :: filterIssues cfg rest
      else filterIssues cfg rest
  end.

Definition sentinelTargetEnd : string := "9999-99-99".

(** The [less] function handed to [sort.Slice]. *)
Definition issueLess (a b : IssueData) : bool :=
  let pi := GetStatusPriority (StatusName a) in
  let pj := GetStatusPriority (StatusName b) in
  if negb (pi =? pj) then pi <? pj
  else
    let ti := if String.eqb (TargetEnd a) "" then sentinelTargetEnd
              else TargetEnd a in
    let tj := if String.eqb (TargetEnd b) "" then sentinelTargetEnd
              else TargetEnd b in
    if negb (String.eqb ti tj) then String.ltb ti tj
    else
      let ui := Updated a in
      let uj := Updated b in
      if negb (String.eqb ui uj) then String.ltb ui uj
      else String.ltb (Summary a) (Summary b).

Definition filterAndSortIssues (issues : list (option IssueData))
    (cfg : ReportConfig) : list IssueData :=
  sort.Slice issueLess (filterIssues cfg issues).

(** ** The CSV renderer's field escaping *)

Definition csvSep : string := "🐱".

(** The double quote, byte 34. *)
Definition quoteChar : ascii := ascii_of_nat 34.
Definition newline : string := String (ascii_of_nat 10) EmptyString.

Definition escapeCSVField (s : string) : string :=
  if strings.Contains s csvSep || strings.Contains s newline
     || strings.Contains s (String quoteChar EmptyString)
  then String quoteChar
         (strings.ReplaceAll s quoteChar (String quoteChar (String quoteChar EmptyString))
          ++ String quoteChar EmptyString)
  else s.

(** A field wrapped in quotes, the quotes inside it doubled. *)
Definition quoted (s : string) : string :=
  String quoteChar
    (strings.ReplaceAll s quoteChar (String quoteChar (String quoteChar ""))
     ++ String quoteChar "").

(** ** Package [net/url]: query escaping *)

Module url.

Definition isAlnum (c : ascii) : bool :=
  let n := nat_of_ascii c in
  (((97 <=? n) && (n <=? 122)) || ((65 <=? n) && (n <=? 90))
   || ((48 <=? n) && (n <=? 57)))%nat.

(** [shouldEscape c encodeQueryComponent]. *)
Definition shouldEscape (c : ascii) : bool :=
  if isAlnum c then false
  else if Ascii.eqb c "-" || Ascii.eqb c "_" || Ascii.eqb c "."
          || Ascii.eqb c "~" then false
  else true.

Definition upperhex (n : nat) : ascii :=
  if (n <? 10)%nat then ascii_of_nat (48 + n) else ascii_of_nat (55 + n).

(** [QueryEscape]: a space becomes [+], a byte that must be escaped becomes
    [%XX] in upper-case hexadecimal. *)
Fixpoint QueryEscape (s : string) : string :=
  match s with
  | EmptyString => EmptyString
  | String c s' =>
      if Ascii.eqb c " " then String "+" (QueryEscape s')
      else if shouldEscape c then
        String "%" (String (upperhex (nat_of_ascii c / 16))
                      (String (upperhex (nat_of_ascii c mod 16))
                         (QueryEscape s')))
      else String c (QueryEscape s')
  end.

Definition ishex (c : ascii) : bool :=
  let n := nat_of_ascii c in
  (((48 <=? n) && (n <=? 57)) || ((97 <=? n) && (n <=? 102))
   || ((65 <=? n) && (n <=? 70)))%nat.

Definition unhex (c : ascii) : nat :=
  let n := nat_of_ascii c in
  if ((48 <=? n) && (n <=? 57))%nat then n - 48
  else if ((97 <=? n) && (n <=? 102))%nat then n - 97 + 10
  else if ((65 <=? n) && (n <=? 70))%nat then n - 65 + 10
  else 0.

(** [QueryUnescape]: [None] for a [%] that two hexadecimal digits do not
    follow. *)
Fixpoint QueryUnescape (s : string) : option string :=
  match s with
  | EmptyString => Some EmptyString
  | String "%" (String a (String b rest)) =>
      if ishex a && ishex b then
        option_map (String (ascii_of_nat (unhex a * 16 + unhex b)))
          (QueryUnescape rest)
      else None
  | String "%" _ => None
  | String "+" rest => option_map (String " ") (QueryUnescape rest)
  | String c rest => option_map (String c) (QueryUnescape rest)
  end.

(** [url.Values{"jql": {v}}.Encode()]. *)
Definition EncodeJql (v : string) : string := "jql=" ++ QueryEscape v.

End url.

(** ** The deep-link renderer *)

(** The query of the deep link for a list of keys. *)
Definition jqlForKeys (keys : list string) : string :=
  "key in (" ++ strings.Join keys ", " ++ ") order by assignee ASC".

Definition RenderURLReport (serverURL : string)
    (issues : list (option IssueData)) (cfg : ReportConfig) : string :=
  let issues := filterAndSortIssues issues cfg in
  match issues with
  | [] => ""
  | _ =>
      let keys := map Key issues in
      let jql := jqlForKeys keys in
      let base := strings.TrimSuffixSlash serverURL in
      base ++ "/issues/?" ++ url.EncodeJql jql
  end.

(** ** The client: paginated search *)

Definition defaultPageSize : Z := 50.

(** The parameters of one search request; [startAt] and [maxResults] travel
    as their decimal text. *)
Record searchParams : Type := mkSearchParams {
  p_jql : string;
  p_fields : string;
  p_startAt : Z;
  p_maxResults : Z
}.

(** What the client needs from the transport: the answer to
    [getJsonList("field", nil)] and, for the [n]-th search request of a call
    (counted from 0) and its parameters, the answer to
    [getJson("search", params)].  [None] is an error; the decoded body of a
    search may be a [nil] map. *)
Record JiraClient : Type := mkJiraClient {
  Server : string;
  fieldCatalog : option (list (gmap string json));
  searchResponse : nat -> searchParams -> option jmap
}.

(** [loadCustomFields]: each name gets the id of the first catalog entry of
    that name.  The result is [None] on a transport error, which leaves the
    map as it was. *)
Definition loadCustomFields (c : JiraClient) (fieldNames : gmap string string)
    : option (gmap string string) :=
  match fieldCatalog c with
  | None => None
  | Some fields =>
      Some (map_imap (fun name old =>
              match List.find (fun f => String.eqb (getString (Some f) "name") name) fields with
              | Some f => Some (getString (Some f) "id")
              | None => Some old
              end) fieldNames)
  end.

(** The result of running [SearchIssues]: the slice it returns, an error,
    the panic of slicing with a negative bound, or a loop that was stopped
    for lack of fuel. *)
Inductive searchResult : Type :=
  | Returned (issues : list (gmap string json))
  | Failed
  | Panicked
  | OutOfFuel.

Definition len {A : Type} (l : list A) : Z := Z.of_nat (length l).

Section SearchIssues.
Variable c : JiraClient.
Variables (jql fields : string) (maxResults : Z).

(** The [for] loop, entered for the [call]-th request. *)
Fixpoint searchLoop (fuel : nat) (call : nat)
    (allIssues : list (gmap string json)) (startAt pageSize : Z)
    : searchResult :=
  match fuel with
  | O => OutOfFuel
  | S fuel' =>
      let params := mkSearchParams jql fields startAt pageSize in
      match searchResponse c call params with
      | None => Failed
      | Some response =>
          let issues := getMapList response "issues" in
          let total := getInt response "total" in
          let allIssues := (allIssues ++ issues)%list in
          if (total <=? len allIssues) || (maxResults <=? len allIssues)
          then Returned allIssues
          else if len issues <? pageSize then Returned allIssues
          else
            let startAt := startAt + pageSize in
            let remaining := maxResults - len allIssues in
            searchLoop fuel' (S call) allIssues startAt
              (Z.min defaultPageSize remaining)
      end
  end.
End SearchIssues.

(** The field list of a search: the fixed fields, then the resolved ids.
    Go ranges over a map in no fixed order; the map of the program has the
    one key "Target end". *)
Definition searchFields (customFields : gmap string string) : string :=
  fold_left (fun b id => if negb (String.eqb id "") then b ++ "," ++ id else b)
    (map snd (map_to_list customFields))
    "summary,status,assignee,priority,created,updated".

(** [SearchIssues], with the fuel of its loop; the new state of the global
    [customFields] comes first. *)
Definition SearchIssues_fuel (fuel : nat) (c : JiraClient)
    (customFields : gmap string string) (jql : string) (maxResults : Z)
    : gmap string string * searchResult :=
  let customFields := default customFields (loadCustomFields c customFields) in
  let fields := searchFields customFields in
  let pageSize := Z.min defaultPageSize maxResults in
  (customFields,
   match searchLoop c jql fields maxResults fuel 0 [] 0 pageSize with
   | Returned allIssues =>
       if maxResults <? len allIssues then
         if maxResults <? 0 then Panicked
         else Returned (take (Z.to_nat maxResults) allIssues)
       else Returned allIssues
   | r => r
   end).

(** Every pass through the loop that goes on adds an issue at least, so
    [maxResults] passes are enough. *)
Definition SearchIssues (c : JiraClient) (customFields : gmap string string)
    (jql : string) (maxResults : Z) : gmap string string * searchResult :=
  SearchIssues_fuel (Z.to_nat maxResults) c customFields jql maxResults.

(** ** The ordering the specification describes *)

(** The four sort keys of a record, in the order of their levels: status
    priority, target end with the sentinel for the empty string, the raw
    [updated] text, the summary. *)
Definition sortKey (r : IssueData) : Z * string * string * string :=
  (GetStatusPriority (StatusName r),
   if String.eqb (TargetEnd r) "" then sentinelTargetEnd else TargetEnd r,
   Updated r,
   Summary r).

(** Strictly ascending on the four keys, a tie at one level falling through
    to the next. *)
Definition keyLtb (k1 k2 : Z * string * string * string) : bool :=
  let '(p1, t1, u1, s1) := k1 in
  let '(p2, t2, u2, s2) := k2 in
  match p1 ?= p2 with
  | Lt => true
  | Gt => false
  | Eq =>
      match String.compare t1 t2 with
      | Lt => true
      | Gt => false
      | Eq =>
          match String.compare u1 u2 with
          | Lt => true
          | Gt => false
          | Eq => String.ltb s1 s2
          end
      end
  end.

(** Ascending: the second key is not strictly below the first. *)
Definition keyLeb (k1 k2 : Z * string * string * string) : bool :=
  negb (keyLtb k2 k1).

(** *** Comparisons and their lexicographic product *)

(** A comparison function that decides a total order. *)
Record goodCmp {A : Type} (cmp : A -> A -> comparison) : Prop := mkGoodCmp {
  gc_eq : forall a b, cmp a b = Eq -> a = b;
  gc_refl : forall a, cmp a a = Eq;
  gc_antisym : forall a b, cmp b a = CompOpp (cmp a b);
  gc_trans : forall a b c, cmp a b = Lt -> cmp b c = Lt -> cmp a c = Lt
}.

Definition lexCmp {A B : Type} (cmpA : A -> A -> comparison)
    (cmpB : B -> B -> comparison) (x y : A * B) : comparison :=
  match cmpA (fst x) (fst y) with
  | Eq => cmpB (snd x) (snd y)
  | c => c
  end.

(** The four levels as one comparison. *)
Definition keyCompare : Z * string * string * string ->
    Z * string * string * string -> comparison :=
  lexCmp (lexCmp (lexCmp Z.compare String.compare) String.compare)
    String.compare.

(** ** A reader of CSV fields *)

(** The reader the round trip of the CSV renderer is stated against, "a
    compliant CSV reader keyed on that separator".  It is no code of the
    repository; it follows the words of the specification and RFC 4180: a
    field that opens with a quote runs to the closing quote, a doubled quote
    inside it standing for one quote, and the separator, a line feed or the
    end of the input must follow; any other field runs up to the separator, a
    line feed or the end of the input and holds no quote. *)
Module csv.
Section Reader.
Variable sep : string.

(** The text after an opening quote: the field and what follows the
    closing quote. *)
Fixpoint readQuoted (s : string) : option (string * string) :=
  match s with
  | EmptyString => None
  | String c rest =>
      if Ascii.eqb c quoteChar then
        match rest with
        | String c' rest' =>
            if Ascii.eqb c' quoteChar then
              match readQuoted rest' with
              | Some (field, after) => Some (String quoteChar field, after)
              | None => None
              end
            else Some (EmptyString, rest)
        | EmptyString => Some (EmptyString, EmptyString)
        end
      else
        match readQuoted rest with
        | Some (field, after) => Some (String c field, after)
        | None => None
        end
  end.

Fixpoint readBare (s : string) : option (string * string) :=
  if String.prefix sep s then Some (EmptyString, s)
  else
    match s with
    | EmptyString => Some (EmptyString, EmptyString)
    | String c rest =>
        if Ascii.eqb c (ascii_of_nat 10) then Some (EmptyString, s)
        else if Ascii.eqb c quoteChar then None
        else
          match readBare rest with
          | Some (field, after) => Some (String c field, after)
          | None => None
          end
    end.

(** What may follow a field. *)
Definition fieldEnd (after : string) : bool :=
  String.eqb after "" || String.prefix sep after
  || String.prefix newline after.

(** One field from the front of [s], and the input after it. *)
Definition readField (s : string) : option (string * string) :=
  match s with
  | String c rest =>
      if Ascii.eqb c quoteChar then
        match readQuoted rest with
        | Some (field, after) =>
            if fieldEnd after then Some (field, after) else None
        | None => None
        end
      else readBare s
  | EmptyString => Some (EmptyString, EmptyString)
  end.
End Reader.
End csv.

(** ** Sample data *)

(** A configuration without filters. *)
Definition noFilters : ReportConfig :=
  mkReportConfig "Snippets!" false None None "" false false false false "".

(** A top-level record with the given key, status, target end, update
    stamp and summary. *)
Definition sampleIssue (key status targetEnd updated summary : string)
    : IssueData :=
  {| Key := key; URL := "https://jira.example.com/browse/" ++ key;
     Summary := summary; StatusName := status; Assignee := "N/A";
     Priority := "None"; Created := ""; Updated := updated;
     TargetEnd := targetEnd; ParentKey := key; ParentSummary := summary;
     ParentURL := "https://jira.example.com/browse/" ++ key;
     Trending := status; Emoji := GetStatusEmoji status;
     Comment := IssueComment.zero |}.

Definition sampleDone : IssueData := sampleIssue "A-1" "Done" "" "" "first".
Definition sampleInProgress : IssueData :=
  sampleIssue "A-2" "In Progress" "" "" "second".

(** The assignment [issue.Comment = c] of the report driver. *)
Definition withComment (issue : IssueData) (c : IssueComment.t) : IssueData :=
  {| Key := Key issue; URL := URL issue; Summary := Summary issue;
     StatusName := StatusName issue; Assignee := Assignee issue;
     Priority := Priority issue; Created := Created issue;
     Updated := Updated issue; TargetEnd := TargetEnd issue;
     ParentKey := ParentKey issue; ParentSummary := ParentSummary issue;
     ParentURL := ParentURL issue; Trending := Trending issue;
     Emoji := Emoji issue; Comment := c |}.

(** 2025-01-01T00:00:00Z. *)
Definition sampleCutoff : time.Time := 1735689600 * time.Second.

Definition sinceCfg : ReportConfig :=
  mkReportConfig "Snippets!" false (Some sampleCutoff) None ""
    false false false false "".

Definition quietCfg : ReportConfig :=
  mkReportConfig "Snippets!" false None (Some sampleCutoff) ""
    false false false false "".

Definition sampleAtCutoff : IssueData :=
  sampleIssue "B-1" "in progress" "" "2025-01-01T00:00:00.000+0000" "on time".
Definition sampleStale : IssueData :=
  sampleIssue "B-2" "in progress" "" "2024-12-31T23:59:59.999+0000" "stale".
Definition sampleUndated : IssueData :=
  sampleIssue "B-3" "in progress" "" "" "undated".
Definition sampleGarbled : IssueData :=
  sampleIssue "B-4" "in progress" "" "yesterday" "garbled".

Definition sampleUpdates : list (option IssueData) :=
  [Some sampleStale; None; Some sampleUndated; Some sampleAtCutoff;
   Some sampleGarbled].

Definition sampleCommented : IssueData :=
  withComment sampleAtCutoff
    (IssueComment.mk "https://jira.example.com/browse/B-1?focusedId=7"
       "2025-01-02T08:00:00.000+0000").

(** 2020-09-13T12:26:40Z, a clock reading well after 2020-01-01. *)
Definition sampleNow : time.Time := 1600000000 * time.Second.

(** The custom field map once "Target end" is resolved. *)
Definition sampleCustomFields : gmap string string :=
  {[ "Target end" := "customfield_10022" ]}.

(** The payload of an issue with a status name and a target end. *)
Definition sampleJson (key status targetEnd : string) : jmap :=
  Some {[ "key" := JString key;
          "fields" := JObject
            {[ "summary" := JString "Ship it";
               "status" := JObject {[ "name" := JString status ]};
               "customfield_10022" := JString targetEnd ]} ]}.

Definition sampleBlocked : IssueData :=
  sampleIssue "A-3" "Blocked" "" "" "third".

(** A field with the separator and a quote in it: [a], the cat, [b], a
    double quote, [c]. *)
Definition sampleField : string :=
  "a" ++ csvSep ++ "b" ++ String quoteChar "c".

(** A transport whose every search page holds five issues of a hundred,
    whatever page size is asked for, and whose field catalog names the
    target end. *)
Definition sampleClient : JiraClient :=
  {| Server := "https://jira.example.com";
     fieldCatalog :=
       Some [ {[ "id" := JString "customfield_10022";
                 "name" := JString "Target end" ]} ];
     searchResponse := fun _ _ =>
       Some (Some {[ "issues" := JArray (replicate 5 (JObject ∅));
                     "total" := JNumber 100 ]}) |}.

(** ** Numbers in a date *)

(** The number two digits spell, and the number four digits spell. *)
Definition num2 (a b : ascii) : Z := time.digitVal a * 10 + time.digitVal b.
Definition num4 (a b c d : ascii) : Z :=
  ((time.digitVal a * 10 + time.digitVal b) * 10 + time.digitVal c) * 10
  + time.digitVal d.

(** ** The most recent comment *)

(** The loop of [findLatestComment] from index 1 on: [latest] and
    [latestCreated] are its two variables. *)
Fixpoint latestFrom (latest : gmap string json) (latestCreated : string)
    (rest : list (gmap string json)) : gmap string json :=
  match rest with
  | [] => latest
  | comment :: rest' =>
      let created := getString (Some comment) "created" in
      if String.ltb latestCreated created
      then latestFrom comment created rest'
      else latestFrom latest latestCreated rest'
  end.

(** [findLatestComment]: [None] is the [nil] it returns for no comments. *)
Definition findLatestComment (comments : list (gmap string json)) : jmap :=
  match comments with
  | [] => None
  | first :: rest =>
      Some (latestFrom first (getString (Some first) "created") rest)
  end.

(** ** A server that pages faithfully *)

(** The answer of a tracker that holds the issues [store], in order, to one
    search request: the [maxResults] issues from [startAt] on, as far as
    there are any, and the number of issues it holds. *)
Definition pageOf (store : list (gmap string json)) (p : searchParams) : jmap :=
  Some {[ "issues" :=
            JArray (map JObject
                      (take (Z.to_nat (p_maxResults p))
                         (drop (Z.to_nat (p_startAt p)) store)));
          "total" := JNumber (len store) ]}.

(** * Properties *)

Local Open Scope list_scope.

(** ** Insertion sort *)

Section SliceFacts.
Context {A : Type} (less : A -> A -> bool).

Abbreviation up := (sort.up less).
Abbreviation down := (sort.down less).

Lemma insertDown_perm (x : A) (below : list A) :
  Permutation (sort.insertDown less x below) (x :: below).
Proof.
  induction below as [|y below IH]; simpl; [reflexivity|].
  destruct (less x y); [|reflexivity].
  rewrite IH. apply perm_swap.
Qed.

Lemma insertionSort_from_perm (rest below : list A) :
  Permutation (sort.insertionSort_from less below rest) (below ++ rest).
Proof.
  revert below. induction rest as [|x rest IH]; intros below; simpl.
  - rewrite app_nil_r. symmetry. apply Permutation_rev.
  - rewrite IH, insertDown_perm. apply Permutation_middle.
Qed.

Lemma Slice_perm (x : list A) : Permutation (sort.Slice less x) x.
Proof. unfold sort.Slice. apply insertionSort_from_perm. Qed.

(** A slice with no descent is left as it is, whatever [less] is. *)
Lemma insertionSort_from_sorted (rest below : list A) :
  Sorted up rest ->
  (forall y x, head below = Some y -> head rest = Some x -> less x y = false) ->
  sort.insertionSort_from less below rest = rev below ++ rest.
Proof.
  revert below. induction rest as [|x rest IH]; intros below Hs Hb; simpl.
  - now rewrite app_nil_r.
  - assert (Hins : sort.insertDown less x below = x :: below).
    { destruct below as [|y below]; simpl; [reflexivity|].
      now rewrite (Hb y x eq_refl eq_refl). }
    rewrite Hins, IH.
    + simpl. now rewrite <- app_assoc.
    + now inversion Hs.
    + intros y x' Hy Hx'. simpl in Hy. injection Hy as <-.
      inversion Hs as [|? ? _ Hhd]; subst.
      destruct rest as [|z rest']; [discriminate|].
      simpl in Hx'. injection Hx' as <-.
      now inversion Hhd.
Qed.

Lemma Slice_sorted_id (x : list A) : Sorted up x -> sort.Slice less x = x.
Proof.
  intros Hs. unfold sort.Slice.
  rewrite insertionSort_from_sorted; [reflexivity|assumption|].
  intros y ? Hy. discriminate.
Qed.

Hypothesis less_asym : forall a b, less a b = true -> less b a = false.
Hypothesis less_negtrans :
  forall a b c, less a b = false -> less b c = false -> less a c = false.

Lemma insertDown_sorted (x : A) (below : list A) :
  StronglySorted down below ->
  StronglySorted down (sort.insertDown less x below).
Proof.
  induction 1 as [|y below Hs IH Hall]; simpl.
  - repeat constructor.
  - destruct (less x y) eqn:Hxy.
    + constructor; [assumption|].
      eapply Permutation_Forall; [symmetry; apply insertDown_perm|].
      constructor; [now apply less_asym | assumption].
    + constructor; [now constructor|].
      constructor; [assumption|].
      eapply Forall_impl; [exact Hall|].
      intros z Hz. now apply (less_negtrans x y z).
Qed.

Lemma StronglySorted_down_rev (l : list A) :
  StronglySorted down l -> StronglySorted up (rev l).
Proof.
  induction 1 as [|y l Hs IH Hall]; simpl; [constructor|].
  apply StronglySorted_app_2; [|assumption|repeat constructor].
  intros x1 x2 H1 H2. apply list_elem_of_singleton in H2. subst x2.
  apply list_elem_of_In, in_rev in H1.
  rewrite List.Forall_forall in Hall. now apply Hall.
Qed.

Lemma insertionSort_from_StronglySorted (rest below : list A) :
  StronglySorted down below ->
  StronglySorted up (sort.insertionSort_from less below rest).
Proof.
  revert below. induction rest as [|x rest IH]; intros below Hs; simpl.
  - now apply StronglySorted_down_rev.
  - apply IH. now apply insertDown_sorted.
Qed.

Lemma Slice_StronglySorted (x : list A) :
  StronglySorted up (sort.Slice less x).
Proof. apply insertionSort_from_StronglySorted. constructor. Qed.

Lemma Slice_idempotent (x : list A) :
  sort.Slice less (sort.Slice less x) = sort.Slice less x.
Proof.
  apply Slice_sorted_id, StronglySorted_Sorted, Slice_StronglySorted.
Qed.
End SliceFacts.

(** ** The comparator is the four-level lexicographic order *)

Lemma Z_goodCmp : goodCmp Z.compare.
Proof.
  constructor.
  - intros a b. apply Z.compare_eq.
  - apply Z.compare_refl.
  - intros a b. apply Z.compare_antisym.
  - intros a b c. rewrite !Z.compare_lt_iff. lia.
Qed.

Lemma string_goodCmp : goodCmp String.compare.
Proof.
  constructor.
  - intros a b. apply String_as_OT.cmp_eq.
  - intros a. now apply String_as_OT.cmp_eq.
  - intros a b. apply String_as_OT.cmp_antisym.
  - intros a b c Hab Hbc.
    apply String_as_OT.cmp_lt. apply String_as_OT.lt_trans with b;
      now apply String_as_OT.cmp_lt.
Qed.

Lemma lexCmp_good {A B : Type} (cmpA : A -> A -> comparison)
    (cmpB : B -> B -> comparison) :
  goodCmp cmpA -> goodCmp cmpB -> goodCmp (lexCmp cmpA cmpB).
Proof.
  intros [eqA reflA antiA transA] [eqB reflB antiB transB].
  constructor; unfold lexCmp.
  - intros [a1 b1] [a2 b2]; simpl.
    destruct (cmpA a1 a2) eqn:Ha; try discriminate.
    intros Hb. f_equal; auto.
  - intros [a b]; simpl. now rewrite reflA.
  - intros [a1 b1] [a2 b2]; simpl.
    rewrite (antiA a1 a2). destruct (cmpA a1 a2); simpl; auto.
  - intros [a1 b1] [a2 b2] [a3 b3]; simpl.
    destruct (cmpA a1 a2) eqn:H12; try discriminate;
      destruct (cmpA a2 a3) eqn:H23; try discriminate; intros Hx Hy.
    + apply eqA in H12, H23. subst. rewrite reflA. eauto.
    + apply eqA in H12. subst. now rewrite H23.
    + apply eqA in H23. subst. now rewrite H12.
    + now rewrite (transA _ _ _ H12 H23).
Qed.

Lemma keyCompare_good : goodCmp keyCompare.
Proof.
  unfold keyCompare.
  repeat apply lexCmp_good; auto using Z_goodCmp, string_goodCmp.
Qed.

Lemma goodCmp_asym {A : Type} (cmp : A -> A -> comparison) (a b : A) :
  goodCmp cmp -> cmp a b = Lt -> cmp b a <> Lt.
Proof. intros G H. rewrite (gc_antisym cmp G a b), H. discriminate. Qed.

Lemma goodCmp_negtrans {A : Type} (cmp : A -> A -> comparison) (a b c : A) :
  goodCmp cmp -> cmp a b <> Lt -> cmp b c <> Lt -> cmp a c <> Lt.
Proof.
  intros G Hab Hbc Hac.
  destruct (cmp a b) eqn:E1; [| congruence |].
  - apply (gc_eq cmp G) in E1. now subst.
  - destruct (cmp b c) eqn:E2; [| congruence |].
    + apply (gc_eq cmp G) in E2. subst. congruence.
    + assert (Hcb : cmp c b = Lt) by (rewrite (gc_antisym cmp G b c), E2; reflexivity).
      pose proof (gc_trans cmp G _ _ _ Hac Hcb) as Hab'. congruence.
Qed.

Lemma keyLtb_keyCompare (k1 k2 : Z * string * string * string) :
  keyLtb k1 k2 = true <-> keyCompare k1 k2 = Lt.
Proof.
  destruct k1 as [[[p1 t1] u1] s1], k2 as [[[p2 t2] u2] s2].
  unfold keyLtb, keyCompare, lexCmp, String.ltb; simpl.
  destruct (p1 ?= p2); [| tauto | split; discriminate].
  destruct (String.compare t1 t2); [| tauto | split; discriminate].
  destruct (String.compare u1 u2); [| tauto | split; discriminate].
  destruct (String.compare s1 s2); split; congruence.
Qed.

Lemma keyLtb_false (k1 k2 : Z * string * string * string) :
  keyLtb k1 k2 = false <-> keyCompare k1 k2 <> Lt.
Proof.
  rewrite <- keyLtb_keyCompare. destruct (keyLtb k1 k2); split; congruence.
Qed.

Lemma string_eqb_compare (a b : string) :
  String.eqb a b = match String.compare a b with Eq => true | _ => false end.
Proof.
  destruct (String.eqb_spec a b) as [->|Hne].
  - now rewrite (gc_refl _ string_goodCmp).
  - destruct (String.compare a b) eqn:E; try reflexivity.
    now apply (gc_eq _ string_goodCmp) in E.
Qed.

Lemma issueLess_keyLtb (a b : IssueData) :
  issueLess a b = keyLtb (sortKey a) (sortKey b).
Proof.
  unfold issueLess, sortKey, keyLtb.
  generalize (GetStatusPriority (StatusName a)) (GetStatusPriority (StatusName b)).
  generalize (if String.eqb (TargetEnd a) "" then sentinelTargetEnd else TargetEnd a).
  generalize (if String.eqb (TargetEnd b) "" then sentinelTargetEnd else TargetEnd b).
  intros tj ti pi pj.
  rewrite Z.eqb_compare, !string_eqb_compare. unfold String.ltb, Z.ltb.
  destruct (pi ?= pj); simpl; try reflexivity.
  destruct (String.compare ti tj); simpl; try reflexivity.
  destruct (String.compare (Updated a) (Updated b)); reflexivity.
Qed.

Lemma issueLess_asym (a b : IssueData) :
  issueLess a b = true -> issueLess b a = false.
Proof.
  rewrite !issueLess_keyLtb, keyLtb_false, keyLtb_keyCompare.
  apply goodCmp_asym, keyCompare_good.
Qed.

Lemma issueLess_negtrans (a b c : IssueData) :
  issueLess a b = false -> issueLess b c = false -> issueLess a c = false.
Proof.
  rewrite !issueLess_keyLtb, !keyLtb_false.
  apply goodCmp_negtrans, keyCompare_good.
Qed.

(** ** The sentinel of the target end

    "9999-99-99" sorts after every target end that [ParseJiraDate] accepts:
    all its formats open with a four-digit year, a dash and a month of 12 at
    most. *)

Lemma atoi_digit (a : ascii) (s : string) :
  time.isDigit a = true ->
  time.atoi (String a s) = time.allDigits 0 (String a s).
Proof.
  destruct a as [[] [] [] [] [] [] [] []]; intros H; try discriminate H;
    reflexivity.
Qed.



Lemma substring_all (s : string) : substring 0 (String.length s) s = s.
Proof. induction s as [|x s IH]; [reflexivity|]. simpl. now rewrite IH. Qed.








(** A target end that is no date may sort after the sentinel. *)
Example sentinel_below_None : String.ltb sentinelTargetEnd "None" = true.
Proof. reflexivity. Qed.

(** ** The filter *)

Lemma In_filterIssues (cfg : ReportConfig) (issues : list (option IssueData))
    (r : IssueData) :
  In r (filterIssues cfg issues) <-> In (Some r) issues /\ keepIssue cfg r = true.
Proof.
  induction issues as [|[x|] issues IH]; simpl.
  - tauto.
  - destruct (keepIssue cfg x) eqn:Hk; simpl; rewrite IH; split.
    + intros [->|[? ?]]; auto.
    + intros [[[= ->]|?] ?]; auto.
    + intros [? ?]; auto.
    + intros [[[= ->]|?] ?]; [congruence|auto].
  - rewrite IH. split; [intros [? ?]; auto | intros [[?|?] ?]; [discriminate|auto]].
Qed.

Lemma filterIssues_kept (cfg : ReportConfig) (l : list IssueData) :
  Forall (fun r => keepIssue cfg r = true) l ->
  filterIssues cfg (map Some l) = l.
Proof.
  induction 1 as [|r l Hr _ IH]; simpl; [reflexivity|].
  now rewrite Hr, IH.
Qed.

Lemma filterAndSortIssues_perm (issues : list (option IssueData))
    (cfg : ReportConfig) :
  Permutation (filterAndSortIssues issues cfg) (filterIssues cfg issues).
Proof. apply Slice_perm. Qed.

Lemma In_filterAndSortIssues (issues : list (option IssueData))
    (cfg : ReportConfig) (r : IssueData) :
  In r (filterAndSortIssues issues cfg)
  <-> In (Some r) issues /\ keepIssue cfg r = true.
Proof.
  rewrite <- In_filterIssues. split; apply Permutation_in;
    [|symmetry]; apply filterAndSortIssues_perm.
Qed.

Lemma sinceKeeps_spec (cfg : ReportConfig) (T : time.Time) (r : IssueData) :
  Since cfg = Some T ->
  sinceKeeps cfg r = true
  <-> exists t, ParseJiraDate (Updated r) = Some t /\ T <= t.
Proof.
  intros HT. unfold sinceKeeps, time.Before. rewrite HT.
  destruct (String.eqb_spec (Updated r) "") as [->|_]; simpl.
  { split; [discriminate|]. intros (t & Ht & _). discriminate. }
  destruct (String.eqb_spec (Updated r) "N/A") as [->|_]; simpl.
  { split; [discriminate|]. intros (t & Ht & _). vm_compute in Ht. discriminate. }
  destruct (ParseJiraDate (Updated r)) as [t|].
  - rewrite negb_true_iff, Z.ltb_ge. split.
    + intros ?. now exists t.
    + now intros (? & [= <-] & ?).
  - split; [discriminate|]. intros (t & Ht & _). discriminate.
Qed.

Lemma commentKeeps_spec (cfg : ReportConfig) (C : time.Time) (r : IssueData) :
  NoCommentSince cfg = Some C ->
  commentKeeps cfg r = false
  <-> IssueComment.Created (Comment r) <> ""%string
      /\ exists t, ParseJiraDate (IssueComment.Created (Comment r)) = Some t
                   /\ C < t.
Proof.
  intros HC. unfold commentKeeps, time.After. rewrite HC.
  destruct (String.eqb_spec (IssueComment.Created (Comment r)) "") as [->|Hne]; simpl.
  { split; [discriminate|]. now intros [? _]. }
  destruct (ParseJiraDate (IssueComment.Created (Comment r))) as [t|].
  - rewrite negb_false_iff, Z.ltb_lt. split.
    + intros ?. split; [assumption|]. now exists t.
    + now intros (_ & ? & [= <-] & ?).
  - split; [discriminate|]. intros (_ & t & Ht & _). discriminate.
Qed.

(** ** The order of the output *)


Lemma priority_of_done (statusName : string) :
  strings.ToLower (strings.TrimSpace statusName) = "done"%string ->
  GetStatusPriority statusName = 0.
Proof. intros H. unfold GetStatusPriority. now rewrite H. Qed.

Lemma priority_of_in_progress (statusName : string) :
  strings.ToLower (strings.TrimSpace statusName) = "in progress"%string ->
  GetStatusPriority statusName = 3.
Proof. intros H. unfold GetStatusPriority. now rewrite H. Qed.

(** C1, as the specification states it, fails: a "Done" and an
    "In Progress" record without target end come out with the "Done" record
    first, not with the "In Progress" record first, in whichever order they
    go in. *)
Lemma in_progress_first_counterexample :
  filterAndSortIssues [Some sampleDone; Some sampleInProgress] noFilters
    = [sampleDone; sampleInProgress]
  /\ filterAndSortIssues [Some sampleInProgress; Some sampleDone] noFilters
       = [sampleDone; sampleInProgress]
  /\ filterAndSortIssues [Some sampleDone; Some sampleInProgress] noFilters
       <> [sampleInProgress; sampleDone].
Proof. repeat split; [vm_compute; reflexivity .. | vm_compute; discriminate]. Qed.

(** C1, amended: for two records with statuses "Done" and "In Progress"
    (in any letter case, white space around them apart) and no target end,
    which both pass the filters, the output of [filterAndSortIssues] has the
    "Done" record first, its priority index 0 being the lower, and the
    "In Progress" record, of index 3, second. *)
Theorem done_sorts_before_in_progress (d p : IssueData) (cfg : ReportConfig) :
  strings.ToLower (strings.TrimSpace (StatusName d)) = "done"%string ->
  strings.ToLower (strings.TrimSpace (StatusName p)) = "in progress"%string ->
  TargetEnd d = ""%string -> TargetEnd p = ""%string ->
  keepIssue cfg d = true -> keepIssue cfg p = true ->
  GetStatusPriority (StatusName d) = 0
  /\ GetStatusPriority (StatusName p) = 3
  /\ filterAndSortIssues [Some d; Some p] cfg = [d; p]
  /\ filterAndSortIssues [Some p; Some d] cfg = [d; p].
Proof.
  intros Hd Hp _ _ Kd Kp.
  pose proof (priority_of_done _ Hd) as Pd.
  pose proof (priority_of_in_progress _ Hp) as Pp.
  assert (Hdp : issueLess d p = true) by (unfold issueLess; now rewrite Pd, Pp).
  assert (Hpd : issueLess p d = false) by (unfold issueLess; now rewrite Pd, Pp).
  repeat split; try assumption;
    unfold filterAndSortIssues, sort.Slice; simpl; rewrite Kd, Kp; simpl.
  - now rewrite Hpd.
  - now rewrite Hdp.
Qed.

Lemma done_sorts_before_in_progress_witness :
  GetStatusPriority (StatusName sampleDone) = 0
  /\ GetStatusPriority (StatusName sampleInProgress) = 3
  /\ filterAndSortIssues [Some sampleDone; Some sampleInProgress] noFilters
       = [sampleDone; sampleInProgress]
  /\ filterAndSortIssues [Some sampleInProgress; Some sampleDone] noFilters
       = [sampleDone; sampleInProgress].
Proof.
  apply (done_sorts_before_in_progress sampleDone sampleInProgress noFilters);
    reflexivity.
Defined.


(** C9: selecting twice is selecting once: [filterAndSortIssues] applied to
    its own output gives that output back, whatever the input, records that
    agree on all four sort keys included. *)
Theorem filterAndSortIssues_idempotent (issues : list (option IssueData))
    (cfg : ReportConfig) :
  filterAndSortIssues (map Some (filterAndSortIssues issues cfg)) cfg
  = filterAndSortIssues issues cfg.
Proof.
  unfold filterAndSortIssues at 1.
  rewrite filterIssues_kept.
  - apply Slice_idempotent; [apply issueLess_asym|apply issueLess_negtrans].
  - apply List.Forall_forall. intros r Hr.
    now apply In_filterAndSortIssues in Hr.
Qed.

(** ** Any other sort

    What is proved of the output does not hang on the sorting algorithm: a
    function that returns its input in order gives the keys in the same
    sequence as the insertion sort, and, when it leaves alone a slice that
    is in order, selecting twice is again selecting once. *)

Lemma keyLeb_antisym (k1 k2 : Z * string * string * string) :
  keyLeb k1 k2 = true -> keyLeb k2 k1 = true -> k1 = k2.
Proof.
  unfold keyLeb. rewrite !negb_true_iff, !keyLtb_false. intros H21 H12.
  apply (gc_eq keyCompare keyCompare_good).
  rewrite (gc_antisym keyCompare keyCompare_good k1 k2) in H21.
  destruct (keyCompare k1 k2); simpl in *; congruence.
Qed.

Lemma up_keyLeb (a b : IssueData) :
  sort.up issueLess a b -> keyLeb (sortKey a) (sortKey b) = true.
Proof.
  unfold sort.up, keyLeb. intros H. now rewrite <- issueLess_keyLtb, H.
Qed.

Section AnySort.
Variable srt : list IssueData -> list IssueData.
Hypothesis srt_perm : forall l, Permutation (srt l) l.
Hypothesis srt_sorted : forall l, StronglySorted (sort.up issueLess) (srt l).

Lemma any_sort_same_keys (l : list IssueData) :
  map sortKey (srt l) = map sortKey (sort.Slice issueLess l).
Proof.
  apply (StronglySorted_unique_strong (fun k1 k2 => keyLeb k1 k2 = true)).
  - intros k1 k2 _ _. apply keyLeb_antisym.
  - apply (StronglySorted_fmap sortKey (sort.up issueLess)); [apply up_keyLeb|].
    apply srt_sorted.
  - apply (StronglySorted_fmap sortKey (sort.up issueLess)); [apply up_keyLeb|].
    apply Slice_StronglySorted; [apply issueLess_asym|apply issueLess_negtrans].
  - apply Permutation_map. rewrite srt_perm. symmetry. apply Slice_perm.
Qed.

Hypothesis srt_sorted_id :
  forall l, Sorted (sort.up issueLess) l -> srt l = l.

Lemma any_sort_idempotent (issues : list (option IssueData))
    (cfg : ReportConfig) :
  srt (filterIssues cfg (map Some (srt (filterIssues cfg issues))))
  = srt (filterIssues cfg issues).
Proof.
  rewrite filterIssues_kept.
  - apply srt_sorted_id, StronglySorted_Sorted, srt_sorted.
  - apply List.Forall_forall. intros r Hr.
    apply (Permutation_in _ (srt_perm _)) in Hr.
    now apply In_filterIssues in Hr.
Qed.
End AnySort.

(** ** The activity filters *)

(** C5: with [since] set to the instant [T], no record whose [updated] is
    empty or does not parse is in the output, nor one whose [updated] parses
    to an instant strictly before [T]; every other record of the input is in
    the output, one that parses to exactly [T] included, as far as the
    other filter, [noCommentSince], lets it through, which it does when it
    is not set. *)
Theorem since_filter (issues : list (option IssueData)) (cfg : ReportConfig)
    (T : time.Time) :
  Since cfg = Some T ->
  (forall r, Updated r = ""%string \/ ParseJiraDate (Updated r) = None ->
             ~ In r (filterAndSortIssues issues cfg))
  /\ (forall r t, ParseJiraDate (Updated r) = Some t -> t < T ->
                  ~ In r (filterAndSortIssues issues cfg))
  /\ (forall r t, In (Some r) issues ->
                  ParseJiraDate (Updated r) = Some t -> T <= t ->
                  commentKeeps cfg r = true ->
                  In r (filterAndSortIssues issues cfg))
  /\ (NoCommentSince cfg = None -> forall r, commentKeeps cfg r = true).
Proof.
  intros HT. repeat split.
  - intros r Hbad Hin. apply In_filterAndSortIssues in Hin as [_ Hk].
    apply andb_true_iff in Hk as [Hs _].
    apply (sinceKeeps_spec cfg T r HT) in Hs as (t & Ht & _).
    destruct Hbad as [He|Hn]; [rewrite He in Ht; discriminate | congruence].
  - intros r t Ht Hlt Hin. apply In_filterAndSortIssues in Hin as [_ Hk].
    apply andb_true_iff in Hk as [Hs _].
    apply (sinceKeeps_spec cfg T r HT) in Hs as (t' & Ht' & Hle).
    assert (t' = t) by congruence. lia.
  - intros r t Hin Ht Hle Hc. apply In_filterAndSortIssues. split; [assumption|].
    unfold keepIssue. rewrite Hc, andb_true_r.
    apply (sinceKeeps_spec cfg T r HT). now exists t.
  - intros HN r. unfold commentKeeps. now rewrite HN.
Qed.

Lemma since_filter_witness :
  ~ In sampleUndated (filterAndSortIssues sampleUpdates sinceCfg)
  /\ ~ In sampleGarbled (filterAndSortIssues sampleUpdates sinceCfg)
  /\ ~ In sampleStale (filterAndSortIssues sampleUpdates sinceCfg)
  /\ In sampleAtCutoff (filterAndSortIssues sampleUpdates sinceCfg).
Proof.
  destruct (since_filter sampleUpdates sinceCfg sampleCutoff eq_refl)
    as (Hbad & Hbefore & Hkeep & Hquiet).
  split; [|split; [|split]].
  - apply Hbad. left. reflexivity.
  - apply Hbad. right. vm_compute. reflexivity.
  - apply (Hbefore sampleStale (sampleCutoff - 1000000)).
    + vm_compute. reflexivity.
    + vm_compute. reflexivity.
  - apply (Hkeep sampleAtCutoff sampleCutoff).
    + do 3 right. left. reflexivity.
    + vm_compute. reflexivity.
    + apply Z.le_refl.
    + apply Hquiet. reflexivity.
Defined.

(** C6: with [noCommentSince] set to the instant [C], a record that the
    [since] filter lets through is dropped if and only if its
    [comment.created] is not empty and parses to an instant strictly after
    [C]; a record without comment, or whose [comment.created] does not
    parse, is kept. *)
Theorem no_comment_since_filter (issues : list (option IssueData))
    (cfg : ReportConfig) (C : time.Time) (r : IssueData) :
  NoCommentSince cfg = Some C ->
  In (Some r) issues ->
  sinceKeeps cfg r = true ->
  (~ In r (filterAndSortIssues issues cfg)
   <-> IssueComment.Created (Comment r) <> ""%string
       /\ exists t, ParseJiraDate (IssueComment.Created (Comment r)) = Some t
                    /\ C < t)
  /\ (IssueComment.Created (Comment r) = ""%string ->
      In r (filterAndSortIssues issues cfg))
  /\ (ParseJiraDate (IssueComment.Created (Comment r)) = None ->
      In r (filterAndSortIssues issues cfg)).
Proof.
  intros HC Hin Hs.
  assert (Hiff : In r (filterAndSortIssues issues cfg)
                 <-> commentKeeps cfg r = true).
  { rewrite In_filterAndSortIssues. unfold keepIssue. rewrite Hs. simpl. tauto. }
  pose proof (commentKeeps_spec cfg C r HC) as Hspec.
  split; [split|split].
  - intros Hnot. apply Hspec. destruct (commentKeeps cfg r); [|reflexivity].
    exfalso. apply Hnot, Hiff. reflexivity.
  - intros Hdrop Hkept. apply Hspec in Hdrop. apply Hiff in Hkept. congruence.
  - intros He. apply Hiff. destruct (commentKeeps cfg r); [reflexivity|].
    destruct (proj1 Hspec eq_refl) as [Hne _]. contradiction.
  - intros Hn. apply Hiff. destruct (commentKeeps cfg r); [reflexivity|].
    destruct (proj1 Hspec eq_refl) as (_ & t & Ht & _). congruence.
Qed.

Lemma no_comment_since_filter_witness :
  ~ In sampleCommented
      (filterAndSortIssues [Some sampleAtCutoff; Some sampleCommented] quietCfg)
  /\ In sampleAtCutoff
       (filterAndSortIssues [Some sampleAtCutoff; Some sampleCommented] quietCfg).
Proof.
  pose proof (no_comment_since_filter
                [Some sampleAtCutoff; Some sampleCommented] quietCfg
                sampleCutoff sampleCommented (eq_refl (Some sampleCutoff))
                (or_intror (or_introl (eq_refl (Some sampleCommented))))
                (eq_refl true)) as [[_ Hdrop] _].
  pose proof (no_comment_since_filter
                [Some sampleAtCutoff; Some sampleCommented] quietCfg
                sampleCutoff sampleAtCutoff (eq_refl (Some sampleCutoff))
                (or_introl (eq_refl (Some sampleAtCutoff)))
                (eq_refl true)) as [_ [Hkeep _]].
  split.
  - apply Hdrop. split; [discriminate|].
    exists (sampleCutoff + 115200 * time.Second). split; vm_compute; reflexivity.
  - apply Hkeep. reflexivity.
Defined.

(** ** Dates, by example *)

Example ParseJiraDate_date : ParseJiraDate "2020-01-01" = Some (1577836800 * time.Second).
Proof. vm_compute. reflexivity. Qed.

Example ParseJiraDate_millis_offset :
  ParseJiraDate "2025-06-15T10:30:00.123+0200"
  = Some (1749976200 * time.Second + 123000000).
Proof. vm_compute. reflexivity. Qed.

Example ParseJiraDate_millis_Z :
  ParseJiraDate "2025-06-15T10:30:00.123Z"
  = Some (1749983400 * time.Second + 123000000).
Proof. vm_compute. reflexivity. Qed.

Example ParseJiraDate_RFC3339 :
  ParseJiraDate "2025-06-15T10:30:00+02:00" = Some (1749976200 * time.Second).
Proof. vm_compute. reflexivity. Qed.

(** A fraction of a second is read after the seconds of a layout that has
    none. *)
Example ParseJiraDate_short_fraction :
  ParseJiraDate "2025-06-15T10:30:00.12+0200"
  = Some (1749976200 * time.Second + 120000000).
Proof. vm_compute. reflexivity. Qed.

Example ParseJiraDate_rejects :
  ParseJiraDate "" = None /\ ParseJiraDate "N/A" = None
  /\ ParseJiraDate "2025-02-29" = None /\ ParseJiraDate "2025-13-01" = None
  /\ ParseJiraDate "2025-06-15 10:30:00" = None.
Proof. repeat split; vm_compute; reflexivity. Qed.

(** The scenario of the blocked issue that was due on 2020-01-01: overdue
    from the first instant of 2020-01-02, not on the day itself. *)
Example IsOverdue_blocked :
  IsOverdue (1577923200 * time.Second) "blocked" "2020-01-01" = true
  /\ IsOverdue (1577923200 * time.Second - 1) "blocked" "2020-01-01" = false.
Proof. split; vm_compute; reflexivity. Qed.

(** ** Overdue *)

(** The statuses [IsOverdue] itself exempts: for "done" and "resolved", in
    any letter case and with white space around, the answer is [false]
    whatever the target end and the clock. *)
Lemma IsOverdue_done_resolved (now : time.Time) (statusName targetEnd : string) :
  strings.ToLower (strings.TrimSpace statusName) = "done"%string
  \/ strings.ToLower (strings.TrimSpace statusName) = "resolved"%string ->
  IsOverdue now statusName targetEnd = false.
Proof. intros [H|H]; unfold IsOverdue; now rewrite H. Qed.

(** C2: the specification has [IsOverdue] false for the whole done
    family, "closed" with "done" and "resolved", whatever the target end.
    [IsOverdue] exempts only the latter two: for the status "closed" and the
    target end 2020-01-01, read on 2020-09-13, it answers [true], although
    "closed" has the glyph of "done", and the normalizer then marks the
    closed issue overdue. *)
Theorem IsOverdue_closed_past_due :
  IsOverdue sampleNow "closed" "2020-01-01" = true
  /\ GetStatusEmoji "closed" = GetStatusEmoji "done"
  /\ Trending (ExtractIssueData sampleNow sampleCustomFields
                 (sampleJson "A-9" "Closed" "2020-01-01")
                 "https://jira.example.com" "" "") = "overdue"%string.
Proof. repeat split; vm_compute; reflexivity. Qed.

(** C4, as the specification states it, fails: a tracker status that is
    itself named "Overdue" reaches [Trending] through the default branch, with
    the glyph of an unknown status and without [IsOverdue] holding. *)
Lemma trending_overdue_counterexample :
  Trending (ExtractIssueData sampleNow sampleCustomFields
              (sampleJson "A-7" "Overdue" "") "https://jira.example.com" "" "")
    = "overdue"%string
  /\ Emoji (ExtractIssueData sampleNow sampleCustomFields
              (sampleJson "A-7" "Overdue" "") "https://jira.example.com" "" "")
       <> offTrackGlyph
  /\ IsOverdue sampleNow "overdue" "" = false.
Proof.
  split; [vm_compute; reflexivity|].
  split; [vm_compute; discriminate | vm_compute; reflexivity].
Qed.

(** C4, amended: for every record [ExtractIssueData] builds whose
    normalized status name is not itself "overdue", a [Trending] of
    "overdue" implies that [Emoji] is the off-track glyph and that
    [IsOverdue] held of the record's status name and target end when it was
    built; and whenever [IsOverdue] holds, the override sets [Trending] to
    "overdue" and [Emoji] to the off-track glyph, whatever the bucket of the
    raw status. *)
Theorem trending_overdue (now : time.Time) (customFields : gmap string string)
    (issue : jmap) (serverURL parentKey parentSummary : string) :
  let r := ExtractIssueData now customFields issue serverURL parentKey
             parentSummary in
  (IsOverdue now (StatusName r) (TargetEnd r) = true ->
   Trending r = "overdue"%string /\ Emoji r = offTrackGlyph)
  /\ (StatusName r <> "overdue"%string ->
      Trending r = "overdue"%string ->
      Emoji r = offTrackGlyph
      /\ IsOverdue now (StatusName r) (TargetEnd r) = true).
Proof.
  unfold ExtractIssueData. cbn [StatusName TargetEnd Trending Emoji].
  set (statusName := strings.ToLower (strings.TrimSpace _)).
  set (targetEnd := if negb _ then _ else _).
  destruct (IsOverdue now statusName targetEnd); split.
  - auto.
  - auto.
  - discriminate.
  - intros Hne Ht. exfalso.
    destruct (_ || _) in Ht; [discriminate|].
    destruct (_ || _) in Ht; [discriminate|].
    contradiction.
Qed.

Lemma trending_overdue_witness :
  Emoji (ExtractIssueData sampleNow sampleCustomFields
           (sampleJson "A-8" "Blocked" "2020-01-01")
           "https://jira.example.com" "" "") = offTrackGlyph
  /\ IsOverdue sampleNow "blocked" "2020-01-01" = true.
Proof.
  apply (proj2 (trending_overdue sampleNow sampleCustomFields
                  (sampleJson "A-8" "Blocked" "2020-01-01")
                  "https://jira.example.com" "" "")).
  - vm_compute. discriminate.
  - vm_compute. reflexivity.
Defined.

(** ** The deep link *)

Lemma QueryEscape_cons (c : ascii) (s : string) :
  url.QueryEscape (String c s)
  = (url.QueryEscape (String c "") ++ url.QueryEscape s)%string.
Proof.
  simpl. destruct (Ascii.eqb c " "); [reflexivity|].
  destruct (url.shouldEscape c); reflexivity.
Qed.

(** Each of the 256 bytes comes back from its escaped form. *)
Lemma QueryUnescape_byte (c : ascii) (t : string) :
  url.QueryUnescape (url.QueryEscape (String c "") ++ t)
  = option_map (String c) (url.QueryUnescape t).
Proof.
  destruct c as [[] [] [] [] [] [] [] []];
    match goal with
    | |- context [url.QueryEscape ?x] =>
        let v := eval vm_compute in (url.QueryEscape x) in
        change (url.QueryEscape x) with v
    end; reflexivity.
Qed.

Lemma QueryUnescape_QueryEscape (s : string) :
  url.QueryUnescape (url.QueryEscape s) = Some s.
Proof.
  induction s as [|c s IH]; [reflexivity|].
  rewrite QueryEscape_cons, QueryUnescape_byte, IH. reflexivity.
Qed.

Lemma RenderURLReport_nonempty (serverURL : string)
    (issues : list (option IssueData)) (cfg : ReportConfig) :
  filterAndSortIssues issues cfg <> [] ->
  RenderURLReport serverURL issues cfg
  = (strings.TrimSuffixSlash serverURL ++ "/issues/?jql="
     ++ url.QueryEscape (jqlForKeys (map Key (filterAndSortIssues issues cfg))))%string.
Proof.
  intros Hne. unfold RenderURLReport, url.EncodeJql.
  destruct (filterAndSortIssues issues cfg); [contradiction|reflexivity].
Qed.

(** C7: the deep-link renderer returns the empty string when the filtered
    sequence is empty; otherwise it returns the server address, [/issues/?]
    and a [jql] parameter that decodes to exactly
    "key in (k1, k2, ..., kn) order by assignee ASC", the keys being those of
    the filtered records in sorted order; for the keys A-1, A-2, A-3 the
    query is "key in (A-1, A-2, A-3) order by assignee ASC". *)
Theorem RenderURLReport_deep_link (serverURL : string)
    (issues : list (option IssueData)) (cfg : ReportConfig) :
  (filterAndSortIssues issues cfg = [] ->
   RenderURLReport serverURL issues cfg = ""%string)
  /\ (filterAndSortIssues issues cfg <> [] ->
      exists q,
        RenderURLReport serverURL issues cfg
        = (strings.TrimSuffixSlash serverURL ++ "/issues/?jql=" ++ q)%string
        /\ url.QueryUnescape q
           = Some ("key in ("
                   ++ strings.Join (map Key (filterAndSortIssues issues cfg)) ", "
                   ++ ") order by assignee ASC")%string)
  /\ (map Key (filterAndSortIssues issues cfg) = ["A-1"; "A-2"; "A-3"]%string ->
      exists q,
        RenderURLReport serverURL issues cfg
        = (strings.TrimSuffixSlash serverURL ++ "/issues/?jql=" ++ q)%string
        /\ url.QueryUnescape q
           = Some "key in (A-1, A-2, A-3) order by assignee ASC"%string).
Proof.
  split; [|split].
  - intros He. unfold RenderURLReport. now rewrite He.
  - intros Hne. eexists. split; [now apply RenderURLReport_nonempty|].
    apply QueryUnescape_QueryEscape.
  - intros Hk. eexists. split.
    + apply RenderURLReport_nonempty. intros He. rewrite He in Hk. discriminate.
    + rewrite Hk. apply QueryUnescape_QueryEscape.
Qed.

Lemma RenderURLReport_deep_link_witness :
  exists q,
    RenderURLReport "https://jira.example.com/"
      [Some sampleBlocked; None; Some sampleInProgress; Some sampleDone]
      noFilters
    = ("https://jira.example.com" ++ "/issues/?jql=" ++ q)%string
    /\ url.QueryUnescape q
       = Some "key in (A-1, A-2, A-3) order by assignee ASC"%string.
Proof.
  apply (proj2 (proj2 (RenderURLReport_deep_link "https://jira.example.com/"
           [Some sampleBlocked; None; Some sampleInProgress; Some sampleDone]
           noFilters))).
  vm_compute. reflexivity.
Defined.

(** ** The CSV field escaping *)

Lemma escapeCSVField_wrapped (s : string) :
  strings.Contains s csvSep = true \/ strings.Contains s newline = true
  \/ strings.Contains s (String quoteChar "") = true ->
  escapeCSVField s = quoted s.
Proof.
  intros H. unfold escapeCSVField, quoted.
  destruct (strings.Contains s csvSep); [reflexivity|].
  destruct (strings.Contains s newline); [reflexivity|].
  destruct (strings.Contains s (String quoteChar "")); [reflexivity|].
  destruct H as [H|[H|H]]; discriminate.
Qed.

Lemma fieldEnd_no_quote (after : string) :
  csv.fieldEnd csvSep after = true ->
  match after with
  | String c _ => Ascii.eqb c quoteChar = false
  | EmptyString => True
  end.
Proof.
  destruct after as [|c after]; [trivial|]. intros H.
  destruct c as [[] [] [] [] [] [] [] []]; try reflexivity.
  vm_compute in H. discriminate.
Qed.

Lemma readQuoted_escaped (s after : string) :
  match after with
  | String c _ => Ascii.eqb c quoteChar = false
  | EmptyString => True
  end ->
  csv.readQuoted
    (strings.ReplaceAll s quoteChar (String quoteChar (String quoteChar ""))
     ++ String quoteChar after)%string
  = Some (s, after).
Proof.
  intros Hafter. induction s as [|c s IH]; simpl.
  - destruct after as [|c' after']; [reflexivity|]. now rewrite Hafter.
  - destruct (Ascii.eqb c quoteChar) eqn:Hc.
    + apply Ascii.eqb_eq in Hc. subst c. simpl.
      change (String.append "" ?x) with x. now rewrite IH.
    + simpl. now rewrite Hc, IH.
Qed.

Lemma append_cons (c : ascii) (s t : string) :
  (String c s ++ t)%string = String c (s ++ t)%string.
Proof. reflexivity. Qed.

Lemma append_assoc (s t u : string) :
  ((s ++ t) ++ u)%string = (s ++ (t ++ u))%string.
Proof.
  induction s as [|c s IH]; [reflexivity|]. now rewrite !append_cons, IH.
Qed.

Lemma append_nil_r (s : string) : (s ++ "")%string = s.
Proof.
  induction s as [|c s IH]; [reflexivity|]. now rewrite append_cons, IH.
Qed.

Lemma readField_quoted (s after : string) :
  csv.fieldEnd csvSep after = true ->
  csv.readField csvSep (quoted s ++ after) = Some (s, after).
Proof.
  intros Hend. unfold quoted, csv.readField.
  rewrite append_cons, Ascii.eqb_refl, append_assoc, append_cons.
  change (String.append "" after) with after.
  rewrite (readQuoted_escaped s after (fieldEnd_no_quote after Hend)).
  now rewrite Hend.
Qed.

(** C8: a field that holds the separator and a quote, once escaped, is read
    back exactly by a CSV reader keyed on the separator, at the end of the
    input and before anything that may follow a field; and a field that
    holds the separator, a line feed or a quote is always wrapped in quotes,
    its own quotes doubled. *)
Theorem escapeCSVField_round_trip (s : string) :
  (strings.Contains s csvSep = true ->
   strings.Contains s (String quoteChar "") = true ->
   csv.readField csvSep (escapeCSVField s) = Some (s, ""%string)
   /\ forall after, csv.fieldEnd csvSep after = true ->
        csv.readField csvSep (escapeCSVField s ++ after) = Some (s, after))
  /\ (strings.Contains s csvSep = true \/ strings.Contains s newline = true
      \/ strings.Contains s (String quoteChar "") = true ->
      escapeCSVField s
      = String quoteChar
          (strings.ReplaceAll s quoteChar
             (String quoteChar (String quoteChar ""))
           ++ String quoteChar "")%string).
Proof.
  split.
  - intros Hsep _.
    rewrite (escapeCSVField_wrapped s (or_introl Hsep)). split.
    + rewrite <- (readField_quoted s "" eq_refl). f_equal.
      symmetry. apply append_nil_r.
    + intros after. apply readField_quoted.
  - apply escapeCSVField_wrapped.
Qed.

Lemma escapeCSVField_round_trip_witness :
  csv.readField csvSep (escapeCSVField sampleField) = Some (sampleField, ""%string)
  /\ forall after, csv.fieldEnd csvSep after = true ->
       csv.readField csvSep (escapeCSVField sampleField ++ after)
       = Some (sampleField, after).
Proof.
  apply (proj1 (escapeCSVField_round_trip sampleField)).
  - vm_compute. reflexivity.
  - vm_compute. reflexivity.
Defined.

(** ** The paginated search *)

Section SearchFacts.
Variable c : JiraClient.
Variables (jql fields : string) (maxResults : Z).

Lemma len_app {A : Type} (l k : list A) : len (l ++ k) = len l + len k.
Proof. unfold len. rewrite length_app. lia. Qed.

Lemma len_nonneg {A : Type} (l : list A) : 0 <= len l.
Proof. unfold len. lia. Qed.

(** A pass that goes on has added [pageSize] issues at least, and a page
    holds one issue at least: [maxResults] passes exhaust the loop. *)
Lemma searchLoop_terminates (fuel call : nat)
    (allIssues : list (gmap string json)) (startAt pageSize : Z) :
  1 <= pageSize ->
  len allIssues < maxResults ->
  maxResults - len allIssues <= Z.of_nat fuel ->
  searchLoop c jql fields maxResults fuel call allIssues startAt pageSize
    <> OutOfFuel.
Proof.
  revert call allIssues startAt pageSize.
  induction fuel as [|fuel IH]; intros call allIssues startAt pageSize
    Hpage Hlt Hfuel; simpl; [lia|].
  destruct (searchResponse c call _) as [response|]; [|discriminate].
  set (issues := getMapList response "issues").
  destruct (_ || _) eqn:Hstop; [discriminate|].
  destruct (len issues <? pageSize) eqn:Hshort; [discriminate|].
  apply orb_false_iff in Hstop as [_ Hmax].
  apply Z.leb_gt in Hmax. apply Z.ltb_ge in Hshort.
  rewrite len_app in Hmax.
  apply IH; rewrite ?len_app; unfold defaultPageSize; lia.
Qed.

(** The loop itself slices nothing. *)
Lemma searchLoop_no_panic (fuel call : nat)
    (allIssues : list (gmap string json)) (startAt pageSize : Z) :
  searchLoop c jql fields maxResults fuel call allIssues startAt pageSize
    <> Panicked.
Proof.
  revert call allIssues startAt pageSize.
  induction fuel as [|fuel IH]; intros call allIssues startAt pageSize;
    simpl; [discriminate|].
  destruct (searchResponse c call _) as [response|]; [|discriminate].
  destruct (_ || _); [discriminate|].
  destruct (_ <? _); [discriminate|]. apply IH.
Qed.

(** More fuel changes nothing once the loop has come to its end. *)
Lemma searchLoop_more_fuel (fuel fuel' call : nat)
    (allIssues : list (gmap string json)) (startAt pageSize : Z) :
  (fuel <= fuel')%nat ->
  searchLoop c jql fields maxResults fuel call allIssues startAt pageSize
    <> OutOfFuel ->
  searchLoop c jql fields maxResults fuel' call allIssues startAt pageSize
  = searchLoop c jql fields maxResults fuel call allIssues startAt pageSize.
Proof.
  revert fuel' call allIssues startAt pageSize.
  induction fuel as [|fuel IH]; intros fuel' call allIssues startAt pageSize
    Hle Hend; simpl in *; [congruence|].
  destruct fuel' as [|fuel']; [lia|]. simpl.
  destruct (searchResponse c call _) as [response|]; [|reflexivity].
  destruct (_ || _); [reflexivity|].
  destruct (_ <? _); [reflexivity|].
  apply IH; [lia|assumption].
Qed.
End SearchFacts.

(** C10: for every query and every [maxResults] of 1 or more, [SearchIssues]
    comes to an end within [maxResults] requests, whatever the server
    answers, and the slice it returns has [maxResults] issues at most: what
    the pages brought beyond that is cut off.  It does not panic, and more
    fuel gives the same result. *)
Theorem SearchIssues_at_most_maxResults (c : JiraClient)
    (customFields : gmap string string) (jql : string) (maxResults : Z) :
  1 <= maxResults ->
  snd (SearchIssues c customFields jql maxResults) <> OutOfFuel
  /\ snd (SearchIssues c customFields jql maxResults) <> Panicked
  /\ (forall issues,
        snd (SearchIssues c customFields jql maxResults) = Returned issues ->
        len issues <= maxResults)
  /\ (forall fuel, (Z.to_nat maxResults <= fuel)%nat ->
        SearchIssues_fuel fuel c customFields jql maxResults
        = SearchIssues c customFields jql maxResults).
Proof.
  intros Hmax. unfold SearchIssues, SearchIssues_fuel. cbn [snd].
  set (cf := default customFields (loadCustomFields c customFields)).
  set (fields := searchFields cf).
  pose proof (searchLoop_terminates c jql fields maxResults
                (Z.to_nat maxResults) 0 [] 0
                (Z.min defaultPageSize maxResults)) as Hterm.
  assert (Hend : searchLoop c jql fields maxResults (Z.to_nat maxResults) 0 []
                   0 (Z.min defaultPageSize maxResults) <> OutOfFuel).
  { apply Hterm; unfold defaultPageSize, len; simpl; lia. }
  clear Hterm.
  assert (Hneg : (maxResults <? 0) = false) by (apply Z.ltb_ge; lia).
  rewrite Hneg.
  split; [|split; [|split]].
  - destruct (searchLoop _ _ _ _ _ _ _ _ _) as [all| | |]; try congruence.
    destruct (maxResults <? len all); discriminate.
  - pose proof (searchLoop_no_panic c jql fields maxResults
                  (Z.to_nat maxResults) 0 [] 0
                  (Z.min defaultPageSize maxResults)) as Hsafe.
    destruct (searchLoop _ _ _ _ _ _ _ _ _) as [all| | |]; try congruence.
    destruct (maxResults <? len all); discriminate.
  - intros issues.
    destruct (searchLoop _ _ _ _ _ _ _ _ _) as [all| | |]; try discriminate.
    destruct (maxResults <? len all) eqn:Hcut.
    + intros [= <-]. unfold len. rewrite length_take. lia.
    + intros [= <-]. now apply Z.ltb_ge in Hcut.
  - intros fuel Hfuel. f_equal.
    now rewrite (searchLoop_more_fuel c jql fields maxResults
                   (Z.to_nat maxResults) fuel).
Qed.

Lemma SearchIssues_at_most_maxResults_witness :
  snd (SearchIssues sampleClient {[ "Target end" := "" ]} "project = X" 3)
    <> OutOfFuel
  /\ snd (SearchIssues sampleClient {[ "Target end" := "" ]} "project = X" 3)
       <> Panicked
  /\ (forall issues,
        snd (SearchIssues sampleClient {[ "Target end" := "" ]} "project = X" 3)
          = Returned issues ->
        len issues <= 3)
  /\ (forall fuel, (Z.to_nat 3 <= fuel)%nat ->
        SearchIssues_fuel fuel sampleClient {[ "Target end" := "" ]}
          "project = X" 3
        = SearchIssues sampleClient {[ "Target end" := "" ]} "project = X" 3).
Proof.
  apply (SearchIssues_at_most_maxResults sampleClient
           {[ "Target end" := ""%string ]} "project = X" 3).
  lia.
Defined.

(** The sample server sends five issues where three were asked for: three
    come back, and the target end is resolved on the way. *)
Example SearchIssues_truncates :
  SearchIssues sampleClient {[ "Target end" := "" ]} "project = X" 3
  = (sampleCustomFields, Returned [∅; ∅; ∅]).
Proof. vm_compute. reflexivity. Qed.

(** ** The status tables *)

Lemma statusPriority_from_other (order : list string) (i : Z)
    (m : gmap string Z) (k : string) :
  k ∉ order -> statusPriority_from i order m !! k = m !! k.
Proof.
  revert i m. induction order as [|s order IH]; intros i m Hk; simpl; [reflexivity|].
  rewrite IH by (intros H; apply Hk; now right).
  apply lookup_insert_ne. intros ->. apply Hk. now left.
Qed.

Lemma statusPriority_from_index (order : list string) (i : Z)
    (m : gmap string Z) (k : string) (j : nat) :
  NoDup order -> order !! j = Some k ->
  statusPriority_from i order m !! k = Some (i + Z.of_nat j).
Proof.
  revert i m j. induction order as [|s order IH]; intros i m j Hnd Hj; [discriminate|].
  apply NoDup_cons in Hnd as [Hs Hnd]. destruct j as [|j]; simpl in *.
  - injection Hj as ->. rewrite statusPriority_from_other by assumption.
    rewrite lookup_insert_eq. f_equal. lia.
  - rewrite (IH (i + 1) _ j Hnd Hj). f_equal. lia.
Qed.

Lemma statusOrder_NoDup : NoDup statusOrder.
Proof.
  unfold statusOrder.
  repeat (apply NoDup_cons_2;
          [rewrite ?elem_of_cons, elem_of_nil; intuition discriminate|]).
  apply NoDup_nil_2.
Qed.

Lemma statusCategories_known (k : string) :
  k ∈ statusOrder ->
  exists e, statusCategories !! k = Some e /\ e <> "❓"%string.
Proof.
  unfold statusOrder. rewrite ?elem_of_cons, elem_of_nil.
  intros H. repeat (destruct H as [->|H]; [eexists; split; [vm_compute; reflexivity|discriminate]|]).
  contradiction.
Qed.

Lemma statusCategories_unknown (k : string) :
  k ∉ statusOrder -> statusCategories !! k = None.
Proof. intros Hk. unfold statusCategories. now apply not_elem_of_list_to_map_1. Qed.

Lemma GetStatusPriority_known_index (statusName : string) (j : nat) :
  statusOrder !! j = Some (strings.ToLower (strings.TrimSpace statusName)) ->
  GetStatusPriority statusName = Z.of_nat j.
Proof.
  intros Hj. unfold GetStatusPriority, statusPriority.
  now rewrite (statusPriority_from_index _ 0 ∅ _ j statusOrder_NoDup Hj).
Qed.

(** X1: the priority of a status is its position in [statusOrder]: the
    table [statusPriority], built by the loop over [statusOrder], sends the
    normalized status name to the index it has there. *)
Theorem GetStatusPriority_is_position (statusName : string) (j : nat) :
  statusOrder !! j = Some (strings.ToLower (strings.TrimSpace statusName)) ->
  GetStatusPriority statusName = Z.of_nat j.
Proof.
  apply GetStatusPriority_known_index.
Qed.

Lemma GetStatusPriority_is_position_witness :
  GetStatusPriority " At Risk" = 4.
Proof.
  apply (GetStatusPriority_is_position " At Risk" 4). reflexivity.
Defined.

(** X2: the two status tables know the same statuses.  A status of
    [statusOrder] has a glyph other than the question mark and a priority
    from 0 to 10; any other status has the question mark and the priority
    999. *)
Theorem status_tables_agree (statusName : string) :
  (In (strings.ToLower (strings.TrimSpace statusName)) statusOrder ->
   GetStatusEmoji statusName <> "❓"%string
   /\ 0 <= GetStatusPriority statusName <= 10)
  /\ (~ In (strings.ToLower (strings.TrimSpace statusName)) statusOrder ->
      GetStatusEmoji statusName = "❓"%string
      /\ GetStatusPriority statusName = 999).
Proof.
  split.
  - intros Hin. apply list_elem_of_In in Hin. split.
    + unfold GetStatusEmoji.
      destruct (statusCategories_known _ Hin) as (e & -> & He). exact He.
    + apply list_elem_of_lookup in Hin as [j Hj].
      rewrite (GetStatusPriority_known_index statusName j Hj).
      apply lookup_lt_Some in Hj. simpl in Hj. lia.
  - intros Hout. rewrite <- list_elem_of_In in Hout. split.
    + unfold GetStatusEmoji. now rewrite statusCategories_unknown.
    + unfold GetStatusPriority, statusPriority.
      now rewrite statusPriority_from_other, lookup_empty.
Qed.

(** ** The comparator as an order *)

Lemma keyCompare_Lt_trans (k1 k2 k3 : Z * string * string * string) :
  keyCompare k1 k2 = Lt -> keyCompare k2 k3 = Lt -> keyCompare k1 k3 = Lt.
Proof. apply (gc_trans keyCompare keyCompare_good). Qed.

(** X3: the function [filterAndSortIssues] hands to [sort.Slice] is a strict
    weak order: no record is below itself, below is transitive, and two
    records are tied, neither below the other, exactly when their four sort
    keys are equal. *)
Theorem issueLess_strict_weak_order :
  (forall a, issueLess a a = false)
  /\ (forall a b c, issueLess a b = true -> issueLess b c = true ->
                    issueLess a c = true)
  /\ (forall a b, issueLess a b = false /\ issueLess b a = false
                  <-> sortKey a = sortKey b).
Proof.
  split; [|split].
  - intros a. rewrite issueLess_keyLtb, keyLtb_false.
    now rewrite (gc_refl keyCompare keyCompare_good).
  - intros a b c. rewrite !issueLess_keyLtb, !keyLtb_keyCompare.
    apply keyCompare_Lt_trans.
  - intros a b. rewrite !issueLess_keyLtb, !keyLtb_false. split.
    + intros [Hab Hba]. apply (gc_eq keyCompare keyCompare_good).
      rewrite (gc_antisym keyCompare keyCompare_good (sortKey a) (sortKey b)) in Hba.
      destruct (keyCompare (sortKey a) (sortKey b)); simpl in *; congruence.
    + intros ->. rewrite (gc_refl keyCompare keyCompare_good). split; discriminate.
Qed.

(** ** What the engine keeps *)

Lemma filterIssues_filter (cfg : ReportConfig) (issues : list (option IssueData)) :
  map Some (filterIssues cfg issues)
  = List.filter (fun o => match o with
                          | Some r => keepIssue cfg r
                          | None => false
                          end) issues.
Proof.
  induction issues as [|[r|] issues IH]; simpl; [reflexivity| |assumption].
  destruct (keepIssue cfg r); simpl; now rewrite IH.
Qed.

Lemma keepIssue_noFilters (cfg : ReportConfig) (r : IssueData) :
  Since cfg = None -> NoCommentSince cfg = None -> keepIssue cfg r = true.
Proof.
  intros Hs Hc. unfold keepIssue, sinceKeeps, commentKeeps. now rewrite Hs, Hc.
Qed.

(** X4: [filterAndSortIssues] neither loses nor repeats nor invents a
    record: its output is a rearrangement of the records of the input that
    are not [nil] and pass both filters, so it is never longer than the
    input; without filters it is a rearrangement of all the records that are
    not [nil]. *)
Theorem filterAndSortIssues_rearranges (issues : list (option IssueData))
    (cfg : ReportConfig) :
  Permutation (map Some (filterAndSortIssues issues cfg))
    (List.filter (fun o => match o with
                           | Some r => keepIssue cfg r
                           | None => false
                           end) issues)
  /\ (length (filterAndSortIssues issues cfg) <= length issues)%nat
  /\ (Since cfg = None -> NoCommentSince cfg = None ->
      Permutation (map Some (filterAndSortIssues issues cfg))
        (List.filter (fun o => match o with
                               | Some _ => true
                               | None => false
                               end) issues)).
Proof.
  assert (Hperm : Permutation (map Some (filterAndSortIssues issues cfg))
                    (map Some (filterIssues cfg issues))).
  { apply Permutation_map, filterAndSortIssues_perm. }
  split; [|split].
  - now rewrite <- filterIssues_filter.
  - apply Permutation_length in Hperm. rewrite !length_map in Hperm.
    rewrite Hperm. rewrite <- (length_map Some), filterIssues_filter.
    apply List.filter_length_le.
  - intros Hs Hc. rewrite Hperm, filterIssues_filter.
    erewrite List.filter_ext; [reflexivity|].
    intros [r|]; [|reflexivity]. now apply keepIssue_noFilters.
Qed.

(** ** The normalizer *)

Lemma isSpace_lowerByte (c : ascii) :
  strings.isSpace (strings.lowerByte c) = strings.isSpace c.
Proof. destruct c as [[] [] [] [] [] [] [] []]; reflexivity. Qed.

Lemma lowerByte_idem (c : ascii) :
  strings.lowerByte (strings.lowerByte c) = strings.lowerByte c.
Proof. destruct c as [[] [] [] [] [] [] [] []]; reflexivity. Qed.

Lemma ToLower_idem (s : string) :
  strings.ToLower (strings.ToLower s) = strings.ToLower s.
Proof.
  induction s as [|c s IH]; simpl; [reflexivity|]. now rewrite lowerByte_idem, IH.
Qed.

Lemma ToLower_TrimLeftSpace (s : string) :
  strings.TrimLeftSpace (strings.ToLower s)
  = strings.ToLower (strings.TrimLeftSpace s).
Proof.
  induction s as [|c s IH]; simpl; [reflexivity|].
  rewrite isSpace_lowerByte. destruct (strings.isSpace c); [assumption|reflexivity].
Qed.

Lemma ToLower_TrimRightSpace (s : string) :
  strings.TrimRightSpace (strings.ToLower s)
  = strings.ToLower (strings.TrimRightSpace s).
Proof.
  induction s as [|c s IH]; simpl; [reflexivity|].
  rewrite IH, isSpace_lowerByte.
  destruct (strings.TrimRightSpace s); simpl; [|reflexivity].
  destruct (strings.isSpace c); reflexivity.
Qed.

Lemma ToLower_TrimSpace (s : string) :
  strings.TrimSpace (strings.ToLower s) = strings.ToLower (strings.TrimSpace s).
Proof.
  unfold strings.TrimSpace. now rewrite ToLower_TrimLeftSpace, ToLower_TrimRightSpace.
Qed.

Lemma TrimRightSpace_idem (s : string) :
  strings.TrimRightSpace (strings.TrimRightSpace s) = strings.TrimRightSpace s.
Proof.
  induction s as [|c s IH]; simpl; [reflexivity|].
  destruct (strings.TrimRightSpace s) as [|d r] eqn:Hr.
  - destruct (strings.isSpace c) eqn:Hc; simpl; [reflexivity|]. now rewrite Hc.
  - simpl in *. now rewrite IH.
Qed.

(** What is left of a string that does not open with white space does not
    either. *)
Lemma TrimRightSpace_head (c : ascii) (s : string) :
  strings.isSpace c = false ->
  exists r, strings.TrimRightSpace (String c s) = String c r.
Proof.
  intros Hc. simpl. destruct (strings.TrimRightSpace s); rewrite ?Hc; eauto.
Qed.

Lemma TrimLeftSpace_head (s : string) :
  match strings.TrimLeftSpace s with
  | String c _ => strings.isSpace c = false
  | EmptyString => True
  end.
Proof.
  induction s as [|c s IH]; simpl; [trivial|].
  destruct (strings.isSpace c) eqn:Hc; [assumption|exact Hc].
Qed.

Lemma TrimSpace_idem (s : string) :
  strings.TrimSpace (strings.TrimSpace s) = strings.TrimSpace s.
Proof.
  unfold strings.TrimSpace.
  pose proof (TrimLeftSpace_head s) as Hhead.
  destruct (strings.TrimLeftSpace s) as [|c t]; [reflexivity|].
  destruct (TrimRightSpace_head c t Hhead) as [r Hr].
  rewrite Hr. simpl strings.TrimLeftSpace. rewrite Hhead, <- Hr.
  apply TrimRightSpace_idem.
Qed.

Lemma normalize_idem (s : string) :
  strings.ToLower (strings.TrimSpace (strings.ToLower (strings.TrimSpace s)))
  = strings.ToLower (strings.TrimSpace s).
Proof. now rewrite ToLower_TrimSpace, TrimSpace_idem, ToLower_idem. Qed.

(** X5: the status name [ExtractIssueData] stores is normalized for good:
    lower-casing and trimming it again changes nothing, so the glyph and the
    priority read off the stored name are those of the raw name of the
    payload, "Unknown" standing in for a missing name. *)
Theorem ExtractIssueData_status_normalized (now : time.Time)
    (customFields : gmap string string) (issue : jmap)
    (serverURL parentKey parentSummary : string) :
  let r := ExtractIssueData now customFields issue serverURL parentKey
             parentSummary in
  let raw := getString (getMap (getMap issue "fields") "status") "name" in
  strings.ToLower (strings.TrimSpace (StatusName r)) = StatusName r
  /\ GetStatusEmoji (StatusName r)
     = GetStatusEmoji (if String.eqb raw "" then "Unknown" else raw)
  /\ GetStatusPriority (StatusName r)
     = GetStatusPriority (if String.eqb raw "" then "Unknown" else raw).
Proof.
  unfold ExtractIssueData. cbn [StatusName].
  unfold GetStatusEmoji, GetStatusPriority.
  now rewrite normalize_idem.
Qed.

Lemma append_inj_l (p s t : string) : (p ++ s)%string = (p ++ t)%string -> s = t.
Proof.
  induction p as [|c p IH]; [trivial|].
  rewrite !append_cons. intros [= H]. now apply IH.
Qed.

(** X6: the parent of a record.  [ParentURL] is always the browse link of
    [ParentKey]; it is the record's own link exactly when the record is its
    own parent; and a record built without a parent is its own parent, with
    its own summary when no parent summary is given. *)
Theorem ExtractIssueData_parent (now : time.Time)
    (customFields : gmap string string) (issue : jmap)
    (serverURL parentKey parentSummary : string) :
  let r := ExtractIssueData now customFields issue serverURL parentKey
             parentSummary in
  URL r = (serverURL ++ "/browse/" ++ Key r)%string
  /\ ParentURL r = (serverURL ++ "/browse/" ++ ParentKey r)%string
  /\ (ParentKey r = Key r <-> ParentURL r = URL r)
  /\ (parentKey = ""%string -> ParentKey r = Key r)
  /\ (parentKey <> ""%string -> ParentKey r = parentKey)
  /\ (parentSummary = ""%string -> ParentSummary r = Summary r).
Proof.
  unfold ExtractIssueData.
  cbn [URL ParentURL ParentKey Key ParentSummary Summary].
  set (key := getString issue "key").
  set (summary := getString (getMap issue "fields") "summary").
  set (pk := if String.eqb parentKey "" then key else parentKey).
  assert (Hurl : (if negb (String.eqb pk key)
                  then (serverURL ++ "/browse/" ++ pk)%string
                  else (serverURL ++ "/browse/" ++ key)%string)
                 = (serverURL ++ "/browse/" ++ pk)%string).
  { destruct (String.eqb_spec pk key) as [->|]; reflexivity. }
  rewrite Hurl. split; [reflexivity|]. split; [reflexivity|]. split; [|split; [|split]].
  - split; [now intros ->|]. intros H.
    now apply append_inj_l, append_inj_l in H.
  - intros ->. reflexivity.
  - intros Hne. subst pk. now destruct (String.eqb_spec parentKey "").
  - intros ->. reflexivity.
Qed.

(** X7: the fallbacks of the normalizer: a record never has an empty
    assignee or priority, whatever the payload holds or lacks ("N/A" and
    "None" stand in); it has no target end, and so is not marked overdue by
    the override, while the custom field "Target end" is unresolved; and it
    has no comment yet. *)
Theorem ExtractIssueData_fallbacks (now : time.Time)
    (customFields : gmap string string) (issue : jmap)
    (serverURL parentKey parentSummary : string) :
  let r := ExtractIssueData now customFields issue serverURL parentKey
             parentSummary in
  Assignee r <> ""%string
  /\ Priority r <> ""%string
  /\ (getString (getMap (getMap issue "fields") "assignee") "displayName"
        = ""%string -> Assignee r = "N/A"%string)
  /\ (getString (getMap (getMap issue "fields") "priority") "name" = ""%string ->
      Priority r = "None"%string)
  /\ (default ""%string (customFields !! "Target end"%string) = ""%string ->
      TargetEnd r = ""%string
      /\ IsOverdue now (StatusName r) (TargetEnd r) = false
      /\ Emoji r = GetStatusEmoji (StatusName r))
  /\ Comment r = IssueComment.zero.
Proof.
  unfold ExtractIssueData.
  cbn [Assignee Priority TargetEnd Comment Emoji StatusName].
  set (assignee := getString (getMap (getMap issue "fields") "assignee") "displayName").
  set (priority := getString (getMap (getMap issue "fields") "priority") "name").
  set (statusName := strings.ToLower (strings.TrimSpace _)).
  split; [|split; [|split; [|split; [|split]]]].
  - destruct (String.eqb_spec assignee ""); [discriminate|assumption].
  - destruct (String.eqb_spec priority ""); [discriminate|assumption].
  - now intros ->.
  - now intros ->.
  - intros ->. cbn [String.eqb negb].
    assert (Hov : IsOverdue now statusName "" = false).
    { unfold IsOverdue. destruct (_ || _); reflexivity. }
    rewrite Hov. split; [reflexivity|]. split; [reflexivity|]. reflexivity.
  - reflexivity.
Qed.

(** ** Reading a date *)

Lemma getnum_fixed_inv (s : string) (n : Z) (rest : string) :
  time.getnum s true = Some (n, rest) ->
  exists a b, s = String a (String b rest)
              /\ time.isDigit a = true /\ time.isDigit b = true
              /\ n = num2 a b.
Proof.
  destruct s as [|a [|b s]]; simpl; try discriminate.
  - destruct (time.isDigit a); discriminate.
  - destruct (time.isDigit a) eqn:Ha; [|discriminate].
    destruct (time.isDigit b) eqn:Hb; [|discriminate].
    intros [= <- <-]. exists a, b. auto.
Qed.

Lemma skip_dash_inv (s rest : string) :
  time.skip s "-" = Some rest -> s = String "-" rest.
Proof.
  destruct s as [|e s]; simpl; [discriminate|].
  destruct (Ascii.eqb e "-") eqn:He; [|discriminate].
  apply Ascii.eqb_eq in He. now intros [= <-]; subst.
Qed.

(** A value that the date chunks accept opens with four digits, a dash, two
    digits of a month from 1 to 12, a dash and two digits. *)
Lemma parseChunks_date_inv (rest : list time.chunk) (s : string)
    (f0 f : time.fields) :
  time.parseChunks (time.dateChunks ++ rest) s f0 = Some f ->
  exists a b c d m1 m2 d1 d2 s',
    s = String a (String b (String c (String d (String "-"
          (String m1 (String m2 (String "-" (String d1 (String d2 s')))))))))
    /\ time.isDigit a = true /\ time.isDigit b = true
    /\ time.isDigit c = true /\ time.isDigit d = true
    /\ time.isDigit m1 = true /\ time.isDigit m2 = true
    /\ time.isDigit d1 = true /\ time.isDigit d2 = true
    /\ 1 <= num2 m1 m2 <= 12
    /\ time.parseChunks rest s'
         (time.mkFields (num4 a b c d) (num2 m1 m2) (num2 d1 d2)
            (time.f_hour f0) (time.f_min f0) (time.f_sec f0)
            (time.f_nsec f0) (time.f_zoneOffset f0)) = Some f.
Proof.
  unfold time.dateChunks. cbn [app].
  destruct s as [|a [|b [|c [|d s]]]];
    try (cbn; intros H; try discriminate H;
         destruct (time.isDigit _); discriminate H).
  cbn [time.parseChunks].
  change (4 <=? String.length (String a (String b (String c (String d s)))))%nat
    with true.
  cbn [andb].
  replace (time.take 4 (String a (String b (String c (String d s)))))
    with (String a (String b (String c (String d ""))))
    by (unfold time.take; simpl; now destruct s).
  replace (time.drop 4 (String a (String b (String c (String d s))))) with s
    by (unfold time.drop; simpl; now rewrite Nat.sub_0_r, substring_all).
  destruct (time.isDigit a) eqn:Ha; [|discriminate].
  rewrite (atoi_digit a _ Ha). cbn [time.allDigits]. rewrite Ha.
  destruct (time.isDigit b) eqn:Hb; [|discriminate].
  destruct (time.isDigit c) eqn:Hc; [|discriminate].
  destruct (time.isDigit d) eqn:Hd; [|discriminate].
  destruct (time.skip s "-") as [s1|] eqn:Hs1; [|discriminate].
  apply skip_dash_inv in Hs1. subst s.
  destruct (time.getnum s1 true) as [[month s2]|] eqn:Hm; [|discriminate].
  apply getnum_fixed_inv in Hm as (m1 & m2 & -> & Hm1 & Hm2 & ->).
  destruct (_ || _) eqn:Hmonth; [discriminate|].
  apply orb_false_iff in Hmonth as [Hlo Hhi].
  apply Z.leb_gt in Hlo. apply Z.ltb_ge in Hhi.
  destruct (time.skip s2 "-") as [s3|] eqn:Hs3; [|discriminate].
  apply skip_dash_inv in Hs3. subst s2.
  destruct (time.getnum s3 true) as [[day s4]|] eqn:Hday; [|discriminate].
  apply getnum_fixed_inv in Hday as (d1 & d2 & -> & Hd1 & Hd2 & ->).
  cbn [time.f_year time.f_month time.f_day time.f_hour time.f_min time.f_sec
       time.f_nsec time.f_zoneOffset].
  intros H. exists a, b, c, d, m1, m2, d1, d2, s4.
  repeat (split; [first [reflexivity | assumption | lia]|]).
  exact H.
Qed.

Lemma parseChunks_nil_inv (s : string) (f0 f : time.fields) :
  time.parseChunks [] s f0 = Some f -> s = ""%string /\ f = f0.
Proof. destruct s; simpl; [now intros [= <-]|discriminate]. Qed.

(** A date without a clock is the midnight that opens its day in UTC. *)
Lemma Parse_layoutDate_midnight (s : string) (due : time.Time) :
  time.Parse time.layoutDate s = Some due ->
  exists days, due = days * (24 * time.Hour).
Proof.
  unfold time.Parse, time.layoutDate.
  destruct (time.parseChunks time.dateChunks s time.noFields) as [f|] eqn:Hp;
    [|discriminate].
  rewrite <- (app_nil_r time.dateChunks) in Hp.
  apply parseChunks_date_inv in Hp
    as (a & b & c & d & m1 & m2 & d1 & d2 & s' & _ & _ & _ & _ & _ & _ & _ & _ & _
        & _ & Hrest).
  apply parseChunks_nil_inv in Hrest as [_ ->].
  cbn [time.f_year time.f_month time.f_day time.f_hour time.f_min time.f_sec
       time.f_nsec time.f_zoneOffset time.noFields].
  destruct (_ || _); [discriminate|]. intros [= <-].
  exists (time.daysSinceEpoch (num4 a b c d) (num2 m1 m2) (num2 d1 d2)).
  unfold time.Date, time.Hour, time.Second. lia.
Qed.

Lemma day_pos : 0 < 24 * time.Hour.
Proof. unfold time.Hour, time.Second. lia. Qed.

Lemma Truncate_day (now : time.Time) :
  time.Truncate now (24 * time.Hour)
  = 24 * time.Hour * (now / (24 * time.Hour)).
Proof.
  pose proof day_pos as Hday. unfold time.Truncate.
  destruct (Z.leb_spec (24 * time.Hour) 0) as [Hle|_]; [lia|].
  replace (now - time.zeroTime) with (now + 719162 * (24 * time.Hour))
    by (unfold time.zeroTime, time.Hour, time.Second; lia).
  rewrite Z.mod_add by lia.
  pose proof (Z.div_mod now (24 * time.Hour) ltac:(lia)). lia.
Qed.

Lemma Truncate_le (now : time.Time) : time.Truncate now (24 * time.Hour) <= now.
Proof.
  pose proof day_pos as Hday. rewrite Truncate_day.
  pose proof (Z.div_mod now (24 * time.Hour) ltac:(lia)).
  pose proof (Z.mod_pos_bound now (24 * time.Hour) Hday). lia.
Qed.

Lemma Truncate_mono (now now' : time.Time) :
  now <= now' ->
  time.Truncate now (24 * time.Hour) <= time.Truncate now' (24 * time.Hour).
Proof.
  intros H. rewrite !Truncate_day.
  pose proof day_pos as Hday.
  apply Z.mul_le_mono_nonneg_l; [lia|]. apply Z.div_le_mono; [lia|assumption].
Qed.

Lemma Truncate_after_midnight (now days : Z) :
  time.After (time.Truncate now (24 * time.Hour)) (days * (24 * time.Hour)) = true
  <-> days * (24 * time.Hour) + 24 * time.Hour <= now.
Proof.
  unfold time.After. rewrite Z.ltb_lt, Truncate_day.
  pose proof day_pos as Hday. set (day := 24 * time.Hour) in *.
  pose proof (Z.div_mod now day ltac:(lia)) as Hdm.
  pose proof (Z.mod_pos_bound now day Hday) as Hmod.
  set (q := now / day) in *. set (r := now mod day) in *.
  rewrite (Z.mul_comm day q).
  rewrite <- (Z.mul_lt_mono_pos_r day days q Hday).
  split; intros H.
  - assert (Hq : (days + 1) * day <= q * day)
      by (apply Z.mul_le_mono_nonneg_r; lia).
    lia.
  - assert (Hq : ~ (q * day <= days * day)) by lia.
    rewrite <- (Z.mul_le_mono_pos_r q days day Hday) in Hq. lia.
Qed.

Lemma Contains_further (c : ascii) (s sub : string) :
  strings.Contains s sub = true -> strings.Contains (String c s) sub = true.
Proof. intros H. simpl. rewrite H. apply orb_true_r. Qed.

Lemma Contains_T_here (s : string) : strings.Contains (String "T" s) "T" = true.
Proof.
  cbn [strings.Contains String.prefix].
  destruct (ascii_dec "T" "T"); [now destruct s|contradiction].
Qed.

(** A value with a clock has the letter T after its date. *)
Lemma Parse_clock_has_T (rest : list time.chunk) (s : string) (t : time.Time) :
  time.Parse (time.dateChunks ++ time.clockChunks ++ rest) s = Some t ->
  strings.Contains s "T" = true.
Proof.
  unfold time.Parse.
  destruct (time.parseChunks _ s time.noFields) as [f|] eqn:Hp; [|discriminate].
  intros _.
  apply parseChunks_date_inv in Hp
    as (a & b & c & d & m1 & m2 & d1 & d2 & s' & -> & _ & _ & _ & _ & _ & _ & _ & _
        & _ & Hrest).
  unfold time.clockChunks in Hrest. cbn [app time.parseChunks] in Hrest.
  destruct s' as [|e s']; [discriminate|]. cbn [time.skip] in Hrest.
  destruct (Ascii.eqb e "T") eqn:He; [|discriminate].
  apply Ascii.eqb_eq in He. subst e.
  do 10 apply Contains_further. apply Contains_T_here.
Qed.

Lemma Contains_T_cons (a : ascii) (s : string) :
  strings.Contains (String a s) "T" = Ascii.eqb a "T" || strings.Contains s "T".
Proof.
  cbn [strings.Contains String.prefix].
  destruct (ascii_dec "T" a) as [<-|Hne].
  - now destruct s.
  - destruct (Ascii.eqb_spec a "T"); [congruence|reflexivity].
Qed.

Lemma colonBeforeLastTwo_T (s : string) :
  strings.Contains (colonBeforeLastTwo s) "T" = true ->
  strings.Contains s "T" = true.
Proof.
  induction s as [|a s IH]; [trivial|].
  assert (Hcons : strings.Contains (String a (colonBeforeLastTwo s)) "T" = true ->
                  strings.Contains (String a s) "T" = true).
  { rewrite !Contains_T_cons. destruct (Ascii.eqb a "T"); [trivial|]. exact IH. }
  destruct s as [|b [|c [|d [|e s]]]]; try exact Hcons.
  cbn [colonBeforeLastTwo]. destruct (_ && _); [|exact Hcons]. clear.
  rewrite !Contains_T_cons. simpl.
  destruct (Ascii.eqb a "T"), (Ascii.eqb b "T"), (Ascii.eqb c "T"),
    (Ascii.eqb d "T"); trivial.
Qed.

(** Without the letter T, only the date layout can read a value. *)
Lemma ParseJiraDate_without_T (s : string) :
  strings.Contains s "T" = false ->
  ParseJiraDate s = time.Parse time.layoutDate s.
Proof.
  intros HT. unfold ParseJiraDate.
  assert (Hno : forall rest, time.Parse (time.dateChunks ++ time.clockChunks ++ rest) s = None).
  { intros rest. destruct (time.Parse _ s) eqn:Hp; [|reflexivity].
    apply Parse_clock_has_T in Hp. congruence. }
  assert (Hfix : time.Parse time.RFC3339 (colonBeforeLastTwo s) = None).
  { destruct (time.Parse _ (colonBeforeLastTwo s)) eqn:Hp; [|reflexivity].
    apply Parse_clock_has_T, colonBeforeLastTwo_T in Hp. congruence. }
  destruct (String.eqb_spec s "") as [->|_]; [reflexivity|].
  unfold jiraFormats. cbn [firstParse].
  unfold time.layoutMillisNumTZ, time.layoutMillisZ, time.layoutNumTZ,
    time.layoutZ, time.RFC3339 in *.
  rewrite !Hno. destruct (time.Parse time.layoutDate s); [reflexivity|exact Hfix].
Qed.

Lemma ParseJiraDate_None_text : ParseJiraDate "None" = None.
Proof. vm_compute. reflexivity. Qed.

(** What [IsOverdue] computes, for a status that is not exempt and a target
    end that parses. *)
Lemma IsOverdue_parsed (now due : time.Time) (statusName targetEnd : string) :
  strings.ToLower (strings.TrimSpace statusName) <> "done"%string ->
  strings.ToLower (strings.TrimSpace statusName) <> "resolved"%string ->
  ParseJiraDate targetEnd = Some due ->
  IsOverdue now statusName targetEnd
  = if strings.Contains targetEnd "T" then time.After now due
    else time.After (time.Truncate now (24 * time.Hour)) due.
Proof.
  intros Hd Hr Hp. unfold IsOverdue.
  destruct (String.eqb_spec (strings.ToLower (strings.TrimSpace statusName)) "done");
    [contradiction|].
  destruct (String.eqb_spec (strings.ToLower (strings.TrimSpace statusName)) "resolved");
    [contradiction|].
  cbn [orb].
  destruct (String.eqb_spec targetEnd "") as [->|_]; [discriminate|].
  destruct (String.eqb_spec targetEnd "None") as [->|_];
    [rewrite ParseJiraDate_None_text in Hp; discriminate|].
  cbn [orb].
  destruct (strings.Contains targetEnd "T") eqn:HT; cbn [negb].
  - now rewrite Hp.
  - rewrite <- (ParseJiraDate_without_T targetEnd HT). now rewrite Hp.
Qed.

Lemma IsOverdue_true_parsed (now : time.Time) (statusName targetEnd : string) :
  IsOverdue now statusName targetEnd = true ->
  strings.ToLower (strings.TrimSpace statusName) <> "done"%string
  /\ strings.ToLower (strings.TrimSpace statusName) <> "resolved"%string
  /\ exists due, ParseJiraDate targetEnd = Some due.
Proof.
  unfold IsOverdue.
  destruct (String.eqb_spec (strings.ToLower (strings.TrimSpace statusName)) "done");
    [discriminate|].
  destruct (String.eqb_spec (strings.ToLower (strings.TrimSpace statusName)) "resolved");
    [discriminate|].
  cbn [orb]. destruct (_ || _); [discriminate|].
  destruct (strings.Contains targetEnd "T") eqn:HT; cbn [negb].
  - destruct (ParseJiraDate targetEnd) as [due|]; [|discriminate]. eauto.
  - rewrite <- (ParseJiraDate_without_T targetEnd HT).
    destruct (ParseJiraDate targetEnd) as [due|]; [|discriminate]. eauto.
Qed.

(** X8: an issue is overdue only past a due instant: when [IsOverdue]
    answers [true], the status is neither "done" nor "resolved", the target
    end parses as a date, and the instant it parses to is strictly before
    the clock reading; so an empty, a "None" or an unreadable target end is
    never overdue. *)
Theorem IsOverdue_sound (now : time.Time) (statusName targetEnd : string) :
  IsOverdue now statusName targetEnd = true ->
  strings.ToLower (strings.TrimSpace statusName) <> "done"%string
  /\ strings.ToLower (strings.TrimSpace statusName) <> "resolved"%string
  /\ exists due, ParseJiraDate targetEnd = Some due /\ due < now.
Proof.
  intros H. destruct (IsOverdue_true_parsed _ _ _ H) as (Hd & Hr & due & Hp).
  split; [assumption|]. split; [assumption|]. exists due. split; [assumption|].
  rewrite (IsOverdue_parsed now due _ _ Hd Hr Hp) in H.
  unfold time.After in H. pose proof (Truncate_le now).
  destruct (strings.Contains targetEnd "T"); apply Z.ltb_lt in H; lia.
Qed.

Lemma IsOverdue_sound_witness :
  strings.ToLower (strings.TrimSpace "Blocked") <> "done"%string
  /\ strings.ToLower (strings.TrimSpace "Blocked") <> "resolved"%string
  /\ exists due, ParseJiraDate "2020-01-01" = Some due /\ due < sampleNow.
Proof.
  apply (IsOverdue_sound sampleNow "Blocked" "2020-01-01").
  vm_compute. reflexivity.
Defined.

(** X9: when an issue becomes overdue.  For a status that is neither
    "done" nor "resolved" and a target end that parses to the instant
    [due]: a target end with a clock (a T in it) is overdue exactly when
    [due] is strictly before now; a target end that is a bare date is not
    overdue on its own day, but exactly from the next midnight of UTC on. *)
Theorem IsOverdue_from (now due : time.Time) (statusName targetEnd : string) :
  strings.ToLower (strings.TrimSpace statusName) <> "done"%string ->
  strings.ToLower (strings.TrimSpace statusName) <> "resolved"%string ->
  ParseJiraDate targetEnd = Some due ->
  (strings.Contains targetEnd "T" = true ->
   (IsOverdue now statusName targetEnd = true <-> due < now))
  /\ (strings.Contains targetEnd "T" = false ->
      (IsOverdue now statusName targetEnd = true
       <-> due + 24 * time.Hour <= now)).
Proof.
  intros Hd Hr Hp. rewrite (IsOverdue_parsed now due _ _ Hd Hr Hp). split; intros HT; rewrite HT.
  - unfold time.After. apply Z.ltb_lt.
  - rewrite (ParseJiraDate_without_T _ HT) in Hp.
    apply Parse_layoutDate_midnight in Hp as [days ->].
    apply Truncate_after_midnight.
Qed.

Lemma IsOverdue_from_witness :
  (IsOverdue (1577923200 * time.Second - 1) "Blocked" "2020-01-01" = true
   <-> 1577836800 * time.Second + 24 * time.Hour
       <= 1577923200 * time.Second - 1).
Proof.
  apply (IsOverdue_from (1577923200 * time.Second - 1) (1577836800 * time.Second)
           "Blocked" "2020-01-01").
  - vm_compute. discriminate.
  - vm_compute. discriminate.
  - vm_compute. reflexivity.
  - vm_compute. reflexivity.
Defined.

(** X10: overdue stays overdue: when [IsOverdue] answers [true] at one
    clock reading, it answers [true] at every later one, for the same
    status and target end. *)
Theorem IsOverdue_monotone (now now' : time.Time)
    (statusName targetEnd : string) :
  now <= now' ->
  IsOverdue now statusName targetEnd = true ->
  IsOverdue now' statusName targetEnd = true.
Proof.
  intros Hle H. destruct (IsOverdue_true_parsed _ _ _ H) as (Hd & Hr & due & Hp).
  rewrite (IsOverdue_parsed now due _ _ Hd Hr Hp) in H.
  rewrite (IsOverdue_parsed now' due _ _ Hd Hr Hp).
  pose proof (Truncate_mono now now' Hle).
  unfold time.After in *.
  destruct (strings.Contains targetEnd "T"); apply Z.ltb_lt in H;
    apply Z.ltb_lt; lia.
Qed.

Lemma IsOverdue_monotone_witness :
  IsOverdue (sampleNow + time.Hour) "Blocked" "2020-01-01" = true.
Proof.
  apply (IsOverdue_monotone sampleNow (sampleNow + time.Hour) "Blocked"
           "2020-01-01").
  - vm_compute. discriminate.
  - vm_compute. reflexivity.
Defined.

(** ** The most recent comment *)

Lemma ltb_le_lt (a b c : string) :
  String.ltb a b = false -> String.ltb a c = true -> String.ltb b c = true.
Proof.
  unfold String.ltb. intros Hab Hac.
  destruct (String.compare b c) eqn:Hbc; [exfalso|reflexivity|exfalso];
    apply (goodCmp_negtrans String.compare a b c string_goodCmp);
    try (rewrite Hbc; discriminate);
    try (destruct (String.compare a b); congruence);
    destruct (String.compare a c); congruence.
Qed.

Lemma ltb_trans (a b c : string) :
  String.ltb a b = true -> String.ltb b c = true -> String.ltb a c = true.
Proof.
  unfold String.ltb. intros Hab Hbc.
  destruct (String.compare a b) eqn:E1; try discriminate.
  destruct (String.compare b c) eqn:E2; try discriminate.
  now rewrite (gc_trans String.compare string_goodCmp a b c E1 E2).
Qed.

Lemma latestFrom_spec (rest : list (gmap string json)) (latest : gmap string json) :
  exists before after,
    latest :: rest
    = before ++ latestFrom latest (getString (Some latest) "created") rest :: after
    /\ (forall c, In c before ->
          String.ltb (getString (Some c) "created")
            (getString (Some (latestFrom latest (getString (Some latest) "created") rest))
               "created") = true)
    /\ (forall c, In c after ->
          String.ltb
            (getString (Some (latestFrom latest (getString (Some latest) "created") rest))
               "created")
            (getString (Some c) "created") = false).
Proof.
  revert latest. induction rest as [|c rest IH]; intros latest.
  - exists [], []. split; [reflexivity|]. split; intros ? [].
  - cbn [latestFrom]. destruct (String.ltb _ _) eqn:Hlt.
    + destruct (IH c) as (before & after & Heq & Hb & Ha).
      set (r := latestFrom c (getString (Some c) "created") rest) in *.
      exists (latest :: before), after.
      split; [now rewrite <- app_comm_cons, <- Heq|].
      split; [|exact Ha].
      intros x [<-|Hx]; [|now apply Hb].
      destruct before as [|b before]; cbn [app] in Heq.
      * assert (Hc : c = r) by congruence. now rewrite <- Hc.
      * assert (Hc : c = b) by congruence. subst b.
        eapply ltb_trans; [exact Hlt|]. apply Hb. now left.
    + destruct (IH latest) as (before & after & Heq & Hb & Ha).
      set (r := latestFrom latest (getString (Some latest) "created") rest) in *.
      destruct before as [|b before]; cbn [app] in Heq.
      * assert (Hl : latest = r) by congruence.
        assert (Hr : rest = after) by congruence.
        exists [], (c :: after).
        split; [cbn [app]; now rewrite <- Hl, Hr|]. split; [intros ? []|].
        intros x [<-|Hx]; [now rewrite <- Hl|now apply Ha].
      * assert (Hl : latest = b) by congruence.
        assert (Hr : rest = before ++ r :: after) by congruence. subst b.
        exists (latest :: c :: before), after.
        split; [cbn [app]; now rewrite Hr|]. split; [|exact Ha].
        intros x [<-|[<-|Hx]].
        -- apply Hb. now left.
        -- eapply ltb_le_lt; [exact Hlt|]. apply Hb. now left.
        -- apply Hb. now right.
Qed.

(** X11: [findLatestComment] returns [nil] exactly for no comments;
    otherwise it returns a comment of the list whose [created] text no
    other comment of the list exceeds, and among several such the first:
    every comment before it has a strictly smaller [created]. *)
Theorem findLatestComment_latest (comments : list (gmap string json)) :
  (findLatestComment comments = None <-> comments = [])
  /\ (forall latest, findLatestComment comments = Some latest ->
      In latest comments
      /\ (forall c, In c comments ->
            String.ltb (getString (Some latest) "created")
              (getString (Some c) "created") = false)
      /\ exists before after,
           comments = before ++ latest :: after
           /\ forall c, In c before ->
                String.ltb (getString (Some c) "created")
                  (getString (Some latest) "created") = true).
Proof.
  split.
  - destruct comments; simpl; split; congruence.
  - intros latest. destruct comments as [|first rest]; [discriminate|].
    cbn [findLatestComment]. intros Hsome.
    assert (Hl : latest = latestFrom first (getString (Some first) "created") rest)
      by congruence.
    subst latest. clear Hsome.
    destruct (latestFrom_spec rest first) as (before & after & Heq & Hb & Ha).
    set (r := latestFrom first (getString (Some first) "created") rest) in *.
    split; [|split].
    + rewrite Heq. apply in_or_app. right. now left.
    + intros c Hc. rewrite Heq in Hc. apply in_app_or in Hc as [Hc|[<-|Hc]].
      * specialize (Hb c Hc). unfold String.ltb in *.
        rewrite (gc_antisym String.compare string_goodCmp
                   (getString (Some c) "created") (getString (Some r) "created")).
        destruct (String.compare (getString (Some c) "created")
                    (getString (Some r) "created")); try discriminate. reflexivity.
      * unfold String.ltb. now rewrite (gc_refl String.compare string_goodCmp).
      * now apply Ha.
    + exists before, after. split; assumption.
Qed.

(** ** The search against a server that pages faithfully *)

Lemma objectsOf_objects (l : list (gmap string json)) :
  objectsOf (map JObject l) = l.
Proof. induction l as [|x l IH]; simpl; [reflexivity|]. now rewrite IH. Qed.

Lemma pageOf_issues (store : list (gmap string json)) (p : searchParams) :
  getMapList (pageOf store p) "issues"
  = take (Z.to_nat (p_maxResults p)) (drop (Z.to_nat (p_startAt p)) store).
Proof.
  unfold getMapList, pageOf. rewrite lookup_insert.
  destruct (decide ("issues" = "issues")) as [_|Hne]; [|now destruct Hne].
  apply objectsOf_objects.
Qed.

Lemma pageOf_total (store : list (gmap string json)) (p : searchParams) :
  getInt (pageOf store p) "total" = len store.
Proof.
  unfold getInt, pageOf. rewrite lookup_insert.
  destruct (decide ("issues" = "total")) as [Heq|_]; [discriminate Heq|].
  rewrite lookup_singleton.
  destruct (decide ("total" = "total")) as [_|Hne]; [|now destruct Hne].
  reflexivity.
Qed.

Lemma searchLoop_faithful (c : JiraClient) (jql fields : string)
    (maxResults : Z) (store : list (gmap string json)) :
  (forall n p, searchResponse c n p = Some (pageOf store p)) ->
  forall (fuel call : nat) (startAt pageSize : Z),
    0 <= startAt -> startAt <= len store ->
    1 <= pageSize -> pageSize <= maxResults - startAt ->
    maxResults - startAt <= Z.of_nat fuel ->
    searchLoop c jql fields maxResults fuel call
      (take (Z.to_nat startAt) store) startAt pageSize
    = Returned (take (Z.to_nat maxResults) store).
Proof.
  intros Hserver. induction fuel as [|fuel IH];
    intros call startAt pageSize H0 Hstore Hp1 Hp2 Hfuel; [lia|].
  cbn [searchLoop]. rewrite Hserver, pageOf_issues, pageOf_total.
  cbn [p_maxResults p_startAt].
  assert (Hall : take (Z.to_nat startAt) store
                 ++ take (Z.to_nat pageSize) (drop (Z.to_nat startAt) store)
                 = take (Z.to_nat (startAt + pageSize)) store).
  { rewrite take_take_drop. f_equal. lia. }
  rewrite Hall.
  assert (Hlen : len (take (Z.to_nat (startAt + pageSize)) store)
                 = Z.min (startAt + pageSize) (len store)).
  { unfold len. rewrite length_take. lia. }
  assert (Hpage : len (take (Z.to_nat pageSize) (drop (Z.to_nat startAt) store))
                  = Z.min pageSize (len store - startAt)).
  { unfold len in *. rewrite length_take, length_drop. lia. }
  rewrite Hlen, Hpage.
  destruct (Z.leb_spec (len store) (Z.min (startAt + pageSize) (len store)))
    as [Hfull|Hmore]; cbn [orb].
  - f_equal. unfold len in *.
    rewrite !take_ge by lia. reflexivity.
  - destruct (Z.leb_spec maxResults (Z.min (startAt + pageSize) (len store)))
      as [Hmax|Hless].
    + f_equal. f_equal. lia.
    + destruct (Z.ltb_spec (Z.min pageSize (len store - startAt)) pageSize)
        as [Hshort|_]; [lia|].
      replace (Z.min (startAt + pageSize) (len store)) with (startAt + pageSize)
        by lia.
      apply IH; unfold defaultPageSize; lia.
Qed.

(** X12: against a tracker that holds a list of issues and answers every
    request with the page asked for and the number of issues it holds,
    [SearchIssues] returns the first [maxResults] issues of the list, all of
    them when there are fewer, in the order of the tracker. *)
Theorem SearchIssues_faithful_server (c : JiraClient)
    (customFields : gmap string string) (jql : string) (maxResults : Z)
    (store : list (gmap string json)) :
  1 <= maxResults ->
  (forall n p, searchResponse c n p = Some (pageOf store p)) ->
  snd (SearchIssues c customFields jql maxResults)
  = Returned (take (Z.to_nat maxResults) store).
Proof.
  intros Hmax Hserver. unfold SearchIssues, SearchIssues_fuel. cbn [snd].
  pose proof (searchLoop_faithful c jql
                (searchFields (default customFields (loadCustomFields c customFields)))
                maxResults store Hserver (Z.to_nat maxResults) 0 0
                (Z.min defaultPageSize maxResults)) as Hloop.
  change (take (Z.to_nat 0) store) with (@nil (gmap string json)) in Hloop.
  rewrite Hloop by (unfold defaultPageSize, len; lia).
  assert (Hlen : len (take (Z.to_nat maxResults) store) <= maxResults).
  { unfold len. rewrite length_take. lia. }
  destruct (Z.ltb_spec maxResults (len (take (Z.to_nat maxResults) store)));
    [lia|reflexivity].
Qed.

Lemma SearchIssues_faithful_server_witness :
  snd (SearchIssues
         (mkJiraClient "https://jira.example.com" None
            (fun _ p => Some (pageOf (replicate 120 ∅) p)))
         sampleCustomFields "project = X" 70)
  = Returned (take (Z.to_nat 70) (replicate 120 ∅)).
Proof.
  apply (SearchIssues_faithful_server
           (mkJiraClient "https://jira.example.com" None
              (fun _ p => Some (pageOf (replicate 120 ∅) p)))
           sampleCustomFields "project = X" 70 (replicate 120 ∅)).
  - lia.
  - intros n p. reflexivity.
Defined.

(** X13: the two failures of [SearchIssues].  A catalog of fields that
    cannot be fetched is a warning only: the map of custom fields is left as
    it was.  A first search request that fails is the error of the search,
    whether the catalog was fetched or not. *)
Theorem SearchIssues_failures (c : JiraClient)
    (customFields : gmap string string) (jql : string) (maxResults : Z) :
  (fieldCatalog c = None ->
   fst (SearchIssues c customFields jql maxResults) = customFields)
  /\ ((forall p, searchResponse c 0%nat p = None) ->
      1 <= maxResults ->
      snd (SearchIssues c customFields jql maxResults) = Failed).
Proof.
  split.
  - intros Hcat. unfold SearchIssues, SearchIssues_fuel, loadCustomFields.
    cbn [fst]. now rewrite Hcat.
  - intros Hfail Hmax. unfold SearchIssues, SearchIssues_fuel. cbn [snd].
    destruct (Z.to_nat maxResults) as [|fuel] eqn:Hfuel; [lia|].
    cbn [searchLoop]. now rewrite Hfail.
Qed.

(** ** Resolving the custom fields *)

Lemma loadCustomFields_lookup (c : JiraClient) (fields : list (gmap string json))
    (fieldNames m : gmap string string) (name : string) :
  fieldCatalog c = Some fields ->
  loadCustomFields c fieldNames = Some m ->
  m !! name
  = match fieldNames !! name with
    | None => None
    | Some old =>
        match List.find (fun f => String.eqb (getString (Some f) "name") name)
                fields with
        | Some f => Some (getString (Some f) "id")
        | None => Some old
        end
    end.
Proof.
  unfold loadCustomFields. intros ->. intros [= <-].
  rewrite map_lookup_imap. now destruct (fieldNames !! name).
Qed.

(** X14: [loadCustomFields] resolves names and nothing else: the map has the
    same names after the call as before, and a second call against the same
    catalog changes nothing more. *)
Theorem loadCustomFields_idempotent (c : JiraClient)
    (fieldNames m : gmap string string) :
  loadCustomFields c fieldNames = Some m ->
  (forall name, is_Some (m !! name) <-> is_Some (fieldNames !! name))
  /\ loadCustomFields c m = Some m.
Proof.
  intros Hload.
  destruct (fieldCatalog c) as [fields|] eqn:Hcat;
    [|unfold loadCustomFields in Hload; rewrite Hcat in Hload; discriminate].
  pose proof (fun name => loadCustomFields_lookup c fields fieldNames m name
                            Hcat Hload) as Hm.
  split.
  - intros name. rewrite Hm. destruct (fieldNames !! name) as [old|].
    + destruct (List.find _ fields); split; intros _; eexists; reflexivity.
    + reflexivity.
  - destruct (loadCustomFields c m) as [m'|] eqn:Hagain;
      [|unfold loadCustomFields in Hagain; rewrite Hcat in Hagain; discriminate].
    f_equal. apply map_eq. intros name.
    rewrite (loadCustomFields_lookup c fields m m' name Hcat Hagain), Hm.
    destruct (fieldNames !! name) as [old|]; [|reflexivity].
    now destruct (List.find _ fields).
Qed.

Lemma loadCustomFields_idempotent_witness :
  (forall name, is_Some (sampleCustomFields !! name)
                <-> is_Some (({[ "Target end" := ""%string ]} : gmap string string) !! name))
  /\ loadCustomFields sampleClient sampleCustomFields = Some sampleCustomFields.
Proof.
  apply (loadCustomFields_idempotent sampleClient
           {[ "Target end" := ""%string ]} sampleCustomFields).
  vm_compute. reflexivity.
Defined.
